(** * vscode-open-url: a shallow embedding of [src/extension.ts]

    The extension reads the setting [openUrl.urls], turns its raw JSON
    elements into [{label?, url}] entries, lets the user pick one, expands
    the [${...}] placeholders of its url against the editor, the workspace
    and the process environment, and hands the result to the external
    opener.

    The development follows the source function by function:
    [normalizeConfigEntries], [expandVariables], [getConfigUrls] and
    [openUrlAction].  JavaScript values, strings and exceptions are modelled
    first. *)

From Stdlib Require Import ZArith Ascii String.
From stdpp Require Import gmap strings list pretty.
From Equations Require Import Equations.
From Equations.Prop Require Logic.

Local Open Scope Z_scope.

(** ** JavaScript strings

    A JavaScript string is a sequence of UTF-16 code units; the model uses
    Rocq's [string], a sequence of 8-bit characters, read as code units
    below 256.  Every string operation of the source works code unit by code
    unit, and the characters the source tests for are all ASCII. *)

Module JsString.

(** [s.startsWith(p)] *)
Definition startsWith (p s : string) : bool := String.prefix p s.

Fixpoint drop (n : nat) (s : string) : string :=
  match n, s with
  | O, _ => s
  | S _, EmptyString => EmptyString
  | S n', String _ s' => drop n' s'
  end.

Fixpoint take (n : nat) (s : string) : string :=
  match n, s with
  | O, _ => EmptyString
  | S _, EmptyString => EmptyString
  | S n', String c s' => String c (take n' s')
  end.

(** A relative index of [slice]: negative counts from the end, and the
    result is clamped to [0, len]. *)
Definition clamp_index (len i : Z) : Z :=
  if i <? 0 then Z.max (len + i) 0 else Z.min i len.

(** [s.slice(start, end)]; [end] is [None] when the argument is left out. *)
Definition slice (s : string) (start : Z) (stop : option Z) : string :=
  let len := Z.of_nat (String.length s) in
  let from := clamp_index len start in
  let to := match stop with None => len | Some e => clamp_index len e end in
  take (Z.to_nat (Z.max (to - from) 0)) (drop (Z.to_nat from) s).

(** [s.split(sep)] for a one-character separator: never the empty list,
    [''.split(sep)] is [['']]. *)
Fixpoint split (sep : ascii) (s : string) : list string :=
  match s with
  | EmptyString => [EmptyString]
  | String c s' =>
      if Ascii.eqb c sep then EmptyString :: split sep s'
      else match split sep s' with
           | [] => [String c EmptyString]
           | p :: ps => String c p :: ps
           end
  end.

(** [parts.pop()]: the last element, [undefined] on the empty array. *)
Definition pop (parts : list string) : option string := last parts.

(** [s.lastIndexOf(c)]: index of the last occurrence, [-1] if none. *)
Fixpoint lastIndexOf (c : ascii) (s : string) : Z :=
  match s with
  | EmptyString => -1
  | String a s' =>
      let r := lastIndexOf c s' in
      if 0 <=? r then 1 + r else if Ascii.eqb a c then 0 else -1
  end.

(** White space and line terminators of ECMAScript among the code units
    below 256: TAB, LF, VT, FF, CR, SP and NBSP. *)
Definition isWhiteSpace (c : ascii) : bool :=
  match N_of_ascii c with
  | 9 | 10 | 11 | 12 | 13 | 32 | 160 => true
  | _ => false
  end%N.

Fixpoint trimStart (s : string) : string :=
  match s with
  | EmptyString => EmptyString
  | String c s' => if isWhiteSpace c then trimStart s' else s
  end.

Fixpoint trimEnd (s : string) : string :=
  match s with
  | EmptyString => EmptyString
  | String c s' =>
      match trimEnd s' with
      | EmptyString => if isWhiteSpace c then EmptyString else String c EmptyString
      | r => String c r
      end
  end.

(** [s.trim()] *)
Definition trim (s : string) : string := trimEnd (trimStart s).

(** Every character of [s] is white space. *)
Fixpoint allWhiteSpace (s : string) : bool :=
  match s with
  | EmptyString => true
  | String c s' => isWhiteSpace c && allWhiteSpace s'
  end.

(** [parts.join(sep)] *)
Fixpoint join (sep : string) (parts : list string) : string :=
  match parts with
  | [] => EmptyString
  | [p] => p
  | p :: ps => p +:+ sep +:+ join sep ps
  end.

(** [c] occurs in [s]. *)
Fixpoint contains (c : ascii) (s : string) : bool :=
  match s with
  | EmptyString => false
  | String a s' => Ascii.eqb a c || contains c s'
  end.

End JsString.

(** ** Exceptions and completions *)

(** A thrown value, kept with what [String(err)] prints for it. *)
Inductive JsError : Type :=
| TypeError (message : string)
| HostError (description : string).

Definition error_to_string (err : JsError) : string :=
  match err with
  | TypeError m => "TypeError: " +:+ m
  | HostError d => d
  end.

(** The outcome of evaluating a piece of JavaScript: a value or a throw. *)
Inductive Completion (A : Type) : Type :=
| Normal (a : A)
| Throw (err : JsError).
Arguments Normal {A} a.
Arguments Throw {A} err.

#[global] Instance Completion_ret : MRet Completion := @Normal.
#[global] Instance Completion_bind : MBind Completion := λ A B f c,
  match c with
  | Normal a => f a
  | Throw e => Throw e
  end.

(** [xs.map(f)] for a callback that may throw: left to right, the first
    throw ends the call. *)
Fixpoint array_map {A B : Type} (f : A → Completion B) (xs : list A)
  : Completion (list B) :=
  match xs with
  | [] => Normal []
  | x :: xs' => y ← f x; ys ← array_map f xs'; mret (y :: ys)
  end.

(** ** JavaScript values, as a JSON setting holds them *)

(** What the program observes of a number: its truth value and its text.
    [num_truthy] is [ToBoolean] (false on zero and NaN), [num_to_string] is
    [Number::toString], which never gives the empty string. *)
Class JsNumber (num : Type) : Type := {
  num_truthy : num → bool;
  num_to_string : num → string;
  num_to_string_nonempty : ∀ n, num_to_string n ≠ EmptyString
}.

#[warning="-register-all"]
Inductive JsValue {num : Type} : Type :=
| JUndefined
| JNull
| JBool (b : bool)
| JNum (n : num)
| JStr (s : string)
| JArr (elems : list JsValue)
| JObj (props : gmap string JsValue).
Arguments JsValue num : clear implicits.

(** Integer-valued numbers below [10^21] in absolute value, which
    [Number::toString] prints in decimal with all their digits. *)
#[global] Instance JsNumber_Z : JsNumber Z.
Proof.
  refine {| num_truthy z := negb (z =? 0); num_to_string z := pretty z |}.
  assert (∀ (x : N) s, s ≠ EmptyString → pretty_N_go x s ≠ EmptyString) as go.
  { intros x. induction (N.lt_wf_0 x) as [x _ IH]; intros s Hs.
    destruct (decide (x = 0%N)) as [->|Hx]; [by rewrite pretty_N_go_0|].
    rewrite pretty_N_go_step by lia.
    apply IH; [|discriminate].
    apply N.Div0.div_lt_upper_bound; lia. }
  intros [|p|p]; unfold pretty; cbn; [discriminate| |discriminate].
  unfold pretty, pretty_positive, pretty, pretty_N.
  case_decide; [discriminate|].
  rewrite pretty_N_go_step by lia. by apply go.
Defined.


Section Values.
Context {num : Type} `{!JsNumber num}.

(** [typeof v] *)
Definition typeof (v : JsValue num) : string :=
  match v with
  | JUndefined => "undefined"
  | JNull => "object"
  | JBool _ => "boolean"
  | JNum _ => "number"
  | JStr _ => "string"
  | JArr _ => "object"
  | JObj _ => "object"
  end.

(** [ToBoolean]: what [if (v)], [!v], [v && ..] and [v ? .. : ..] test. *)
Definition truthy (v : JsValue num) : bool :=
  match v with
  | JUndefined | JNull => false
  | JBool b => b
  | JNum n => num_truthy n
  | JStr s => negb (String.eqb s "")
  | JArr _ | JObj _ => true
  end.

(** [String(v)].  An array prints its elements joined by commas, with
    [null] and [undefined] elements printed as nothing.  A plain object is
    converted by its [toString] method: the one of [Object.prototype]
    prints [[object Object]]; an own [toString] property of a JSON object
    hides it and is not callable, and since [valueOf] then gives no
    primitive either, the conversion throws. *)
Fixpoint to_string (v : JsValue num) : Completion string :=
  match v with
  | JUndefined => mret "undefined"
  | JNull => mret "null"
  | JBool true => mret "true"
  | JBool false => mret "false"
  | JNum n => mret (num_to_string n)
  | JStr s => mret s
  | JArr elems =>
      parts ← array_map (λ e, match e with
                              | JUndefined | JNull => mret EmptyString
                              | _ => to_string e
                              end) elems;
      mret (JsString.join "," parts)
  | JObj props =>
      match props !! "toString" with
      | Some _ => Throw (TypeError "Cannot convert object to primitive value")
      | None => mret "[object Object]"
      end
  end.

(** [v.key] for a key that no built-in prototype defines ([url] and
    [label] are such keys): reading a property of [null] or [undefined]
    throws, a plain object gives its own property, everything else gives
    [undefined]. *)
Definition get_property (v : JsValue num) (key : string)
  : Completion (JsValue num) :=
  match v with
  | JUndefined =>
      Throw (TypeError ("Cannot read properties of undefined (reading '"
                          +:+ key +:+ "')"))
  | JNull =>
      Throw (TypeError ("Cannot read properties of null (reading '"
                          +:+ key +:+ "')"))
  | JObj props => Normal (default JUndefined (props !! key))
  | _ => Normal JUndefined
  end.

(** [a ?? b] *)
Definition nullish_or (a b : JsValue num) : JsValue num :=
  match a with
  | JUndefined | JNull => b
  | _ => a
  end.

(** ** [normalizeConfigEntries] (lines 3-18) *)

(** [type UrlEntry = { label?: string; url: string }].  The annotation is
    erased at run time: both fields hold whatever value the setting had.
    A missing [label] reads as [undefined]. *)
Record UrlEntry : Type := {
  label : JsValue num;
  url : JsValue num
}.

(** The callback of [raw.map], lines 9-17. *)
Definition normalizeEntry (it : JsValue num) : Completion UrlEntry :=
  if String.eqb (typeof it) "string" then
    mret {| label := JUndefined; url := it |}
  else
    is_entry ←
      (if String.eqb (typeof it) "object"
       then u ← get_property it "url"; mret (truthy u)
       else mret false);
    if is_entry : bool then
      l ← get_property it "label";
      u ← get_property it "url";
      mret {| label := l; url := u |}
    else
      s ← to_string it;
      mret {| label := JUndefined; url := JStr s |}.

(** [raw] is [None] for [undefined]. *)
Definition normalizeConfigEntries (raw : option (list (JsValue num)))
  : Completion (list UrlEntry) :=
  match raw with
  | None => mret []
  | Some items => array_map normalizeEntry items
  end.

End Values.
Arguments UrlEntry num : clear implicits.

(** ** [expandVariables] (lines 20-86) *)

(** What the expander reads of the active editor. *)
Record TextEditor : Type := {
  document_fsPath : string;        (* editor.document.uri.fsPath *)
  document_relativePath : string;  (* asRelativePath(editor.document.uri, false) *)
  selection_text : string;         (* editor.document.getText(editor.selection) *)
  selection_line : N               (* editor.selection.active.line *)
}.

Record WorkspaceFolder : Type := {
  name : string;                   (* f.name *)
  uri_fsPath : string              (* f.uri.fsPath *)
}.

(** The ambient state one call of [expandVariables] reads. *)
Record EditorContext : Type := {
  activeTextEditor : option TextEditor;            (* vscode.window.activeTextEditor *)
  workspaceFolders : option (list WorkspaceFolder); (* vscode.workspace.workspaceFolders *)
  (* the variables of process.env, under their exact names *)
  process_env : gmap string string;
  (* process.cwd(), in a process whose working directory still exists *)
  process_cwd : string
}.

(** What [String(Object.prototype[name])] prints for the members of
    [Object.prototype]: its methods print as native functions, and
    [__proto__] gives the prototype object itself. *)
Definition Object_prototype_text (name : string) : option string :=
  if bool_decide (name ∈ ["__defineGetter__"; "__defineSetter__";
                          "hasOwnProperty"; "__lookupGetter__";
                          "__lookupSetter__"; "isPrototypeOf";
                          "propertyIsEnumerable"; "toString"; "valueOf";
                          "toLocaleString"])
  then Some ("function " +:+ name +:+ "() { [native code] }")
  else if String.eqb name "constructor"
  then Some "function Object() { [native code] }"
  else if String.eqb name "__proto__"
  then Some "[object Object]"
  else None.

(** [process.env[name]], as the callback of [replace] hands it on: the
    variable of that name and, when there is none, what [process.env]
    inherits from [Object.prototype] under that name, turned into text by
    [replace]. *)
Definition env_read (env : gmap string string) (name : string)
  : option string :=
  match env !! name with
  | Some v => Some v
  | None => Object_prototype_text name
  end.

(** [x ?? ''] and [x || ''] on a string that may be [undefined]: both give
    [''] for [undefined], and [||] maps the empty string to itself. *)
Definition or_empty (x : option string) : string := default EmptyString x.

(** The regular expression [/\$\{([^}]+)\}/g]. *)
Module Placeholder.

(** The greedy run [[^}]*] at the head of [s], and what follows it. *)
Fixpoint span_inner (s : string) : string * string :=
  match s with
  | EmptyString => (EmptyString, EmptyString)
  | String c s' =>
      if Ascii.eqb c "}" then (EmptyString, s)
      else let '(inner, rest) := span_inner s' in (String c inner, rest)
  end.

(** A match of the expression anchored at the head of [s]: the captured
    group and the text after the match.  The run must be non-empty and a
    closing brace must follow it; giving back characters of the run
    cannot help, since none of them is a closing brace. *)
Definition match_here (s : string) : option (string * string) :=
  match s with
  | String "$" (String "{" s') =>
      match span_inner s' with
      | (String c inner, String "}" rest) => Some (String c inner, rest)
      | _ => None
      end
  | _ => None
  end.

Lemma span_inner_length s :
  (String.length (snd (span_inner s)) ≤ String.length s)%nat.
Proof.
  induction s as [|c s IH]; simpl; [lia|].
  destruct (Ascii.eqb c "}"); simpl; [lia|].
  destruct (span_inner s); simpl in *; lia.
Qed.

Lemma match_here_length s expr rest :
  match_here s = Some (expr, rest) →
  (String.length rest < String.length s)%nat.
Proof.
  unfold match_here. intros H.
  destruct s as [|a s]; [done|].
  destruct (Ascii.eqb_spec a "$"); [subst|by destruct a as [[][][][][][][][]]].
  destruct s as [|b s]; [done|].
  destruct (Ascii.eqb_spec b "{"); [subst|by destruct b as [[][][][][][][][]]].
  pose proof (span_inner_length s) as Hlen.
  destruct (span_inner s) as [[|c inner] r]; [done|].
  destruct r as [|d r]; [done|].
  destruct (Ascii.eqb_spec d "}"); [subst|by destruct d as [[][][][][][][][]]].
  injection H as <- <-. simpl in *. lia.
Qed.

(** [s.replace(re, (_, expr) => f(expr))]: matches are looked for from
    left to right, each one is replaced by what the callback returns for
    its group and the scan goes on after it; a character where no match
    starts is copied. *)
Equations? replace (f : string → string) (s : string) : string
  by wf (String.length s) lt :=
  replace f s with Logic.inspect (match_here s) := {
    | exist _ (Some (expr, rest)) _ => f expr +:+ replace f rest
    | exist _ None _ with s := {
        | EmptyString => EmptyString
        | String c s' => String c (replace f s') } }.
Proof. by eapply match_here_length. Qed.

(** Some match starts somewhere in [s]. *)
Fixpoint occurs (s : string) : bool :=
  match s with
  | EmptyString => false
  | String _ s' => bool_decide (is_Some (match_here s)) || occurs s'
  end.

(** [pre] has no dollar sign followed by an opening brace. *)
Fixpoint no_opening (pre : string) : bool :=
  match pre with
  | String "$" (String "{" _) => false
  | String _ pre' => no_opening pre'
  | EmptyString => true
  end.




#[global] Arguments match_here : simpl never.

End Placeholder.

(** [s] contains a placeholder: a dollar sign, an opening brace, a non-empty
    text without closing brace, a closing brace. *)
Definition has_placeholder (s : string) : Prop :=
  ∃ pre expr post,
    s = pre +:+ "${" +:+ expr +:+ "}" +:+ post
    ∧ expr ≠ EmptyString
    ∧ JsString.contains "}" expr = false.


(** The callback of [template.replace], lines 25-85: the value of one
    placeholder expression. *)
Definition resolveVariable (ctx : EditorContext) (expr : string) : string :=
  let editor := activeTextEditor ctx in
  let folders := default [] (workspaceFolders ctx) in
  if JsString.startsWith "env:" expr then
    let name := JsString.slice expr 4 None in
    or_empty (env_read (process_env ctx) name)
  else if JsString.startsWith "workspaceFolder" expr then
    let parts := JsString.split ":" expr in
    if (length parts =? 1)%nat then
      or_empty (uri_fsPath <$> folders !! 0%nat)
    else
      let name' := parts !! 1%nat in
      let found := List.find (λ f, bool_decide (Some (name f) = name')) folders in
      or_empty (uri_fsPath <$> found)
  else if String.eqb expr "cwd" then
    process_cwd ctx
  else if String.eqb expr "file" || String.eqb expr "filePath" then
    or_empty (document_fsPath <$> editor)
  else if String.eqb expr "fileBasename" then
    match editor with
    | Some ed => or_empty (JsString.pop (JsString.split "/" (document_relativePath ed)))
    | None => EmptyString
    end
  else if String.eqb expr "fileBasenameNoExtension" then
    let base :=
      match editor with
      | Some ed => or_empty (JsString.pop (JsString.split "/" (document_relativePath ed)))
      | None => EmptyString
      end in
    let idx := JsString.lastIndexOf "." base in
    if 0 <? idx then JsString.slice base 0 (Some idx) else base
  else if String.eqb expr "fileDirname" then
    match editor with
    | None => EmptyString
    | Some ed =>
        let full := document_fsPath ed in
        let idx := JsString.lastIndexOf "/" full in
        if 0 <=? idx then JsString.slice full 0 (Some idx) else EmptyString
    end
  else if String.eqb expr "relativeFile" then
    match editor with
    | None => EmptyString
    | Some ed => document_relativePath ed
    end
  else if String.eqb expr "selectedText" then
    match editor with
    | None => EmptyString
    | Some ed => or_empty (Some (selection_text ed))
    end
  else if String.eqb expr "lineNumber" then
    match editor with
    | None => EmptyString
    | Some ed => pretty (selection_line ed + 1)%N
    end
  else
    or_empty (env_read (process_env ctx) expr).

(** [expr] is taken by one of the rules before the fallback of line 84. *)
Definition named_rule (expr : string) : bool :=
  JsString.startsWith "env:" expr
  || JsString.startsWith "workspaceFolder" expr
  || String.eqb expr "cwd"
  || String.eqb expr "file" || String.eqb expr "filePath"
  || String.eqb expr "fileBasename"
  || String.eqb expr "fileBasenameNoExtension"
  || String.eqb expr "fileDirname"
  || String.eqb expr "relativeFile"
  || String.eqb expr "selectedText"
  || String.eqb expr "lineNumber".

(** [workspaceFolders[0]?.uri.fsPath ?? ''], line 36. *)
Definition first_folder_path (ctx : EditorContext) : string :=
  or_empty (uri_fsPath <$> default [] (workspaceFolders ctx) !! 0%nat).

Section Expand.
Context {num : Type} `{!JsNumber num}.

(** [expandVariables(template)].  The parameter is declared
    [template?: string]; the caller on line 119 passes [pick.url], whose
    run-time value need not be a string, and [.replace] is then not a
    function. *)
Definition expandVariables (ctx : EditorContext) (template : JsValue num)
  : Completion string :=
  if negb (truthy template) then mret EmptyString
  else match template with
       | JStr t => mret (Placeholder.replace (resolveVariable ctx) t)
       | _ => Throw (TypeError "template.replace is not a function")
       end.

End Expand.

(** ** The command (lines 88-130) *)

Section Command.
Context {num : Type} `{!JsNumber num}.

(** An item shown by the picker, line 108. *)
Record QuickPickItem : Type := {
  item_label : JsValue num;
  item_description : JsValue num;
  item_entry : UrlEntry num
}.

(** The calls the command makes to the host, in the order it makes them. *)
Inductive HostCall : Type :=
| ShowInformationMessage (message : string)
| ShowErrorMessage (message : string)
| ShowQuickPick (items : list QuickPickItem) (placeHolder : string)
| OpenExternal (uri : string).

(** What the host answers during one invocation. *)
Record Host : Type := {
  (* cfg.get('openUrl.urls'): any value, [JUndefined] when not set *)
  configuration : JsValue num;
  context : EditorContext;
  (* the promise of [showQuickPick]: resolved with the item the user
     picks, with [None] when the picker is dismissed, or rejected *)
  quickPick_answer : list QuickPickItem → Completion (option QuickPickItem);
  encodeURI : string → Completion string;
  Uri_parse : string → Completion string;
  (* the promise of [openExternal]: resolved, or rejected with an error *)
  openExternal_answer : string → Completion bool
}.

(** A computation that calls the host: it extends the log of calls and
    ends with a value or a throw. *)
Definition Action (A : Type) : Type :=
  list HostCall → Completion A * list HostCall.

Definition act_ret {A} (a : A) : Action A := λ log, (Normal a, log).

Definition act_bind {A B} (m : Action A) (k : A → Action B) : Action B :=
  λ log, match m log with
         | (Normal a, log') => k a log'
         | (Throw e, log') => (Throw e, log')
         end.

(** An expression that may throw and calls nothing. *)
Definition act_lift {A} (c : Completion A) : Action A := λ log, (c, log).

(** One call to the host, recorded. *)
Definition act_call (c : HostCall) : Action unit :=
  λ log, (Normal (), log ++ [c]).

(** [try { body } catch (err) { handler }] *)
Definition try_catch {A} (body : Action A) (handler : JsError → Action A)
  : Action A :=
  λ log, match body log with
         | (Throw e, log') => handler e log'
         | r => r
         end.

Notation "x <- m ;; k" := (act_bind m (λ x, k))
  (at level 100, m at next level, right associativity, only parsing).
Notation "m ;;; k" := (act_bind m (λ _, k))
  (at level 100, right associativity, only parsing).

(** Lines 88-92.  The cast [as any[] | undefined] of line 90 checks
    nothing: a falsy value takes the branch of line 6 as [undefined] does,
    and on a truthy value that is not an array [raw.map] is not a
    function. *)
Definition getConfigUrls (host : Host) : Completion (list (UrlEntry num)) :=
  match configuration host with
  | JArr items => normalizeConfigEntries (Some items)
  | raw =>
      if truthy raw then Throw (TypeError "raw.map is not a function")
      else normalizeConfigEntries None
  end.

(** Line 108. *)
Definition quickPickItem (e : UrlEntry num) : QuickPickItem := {|
  item_label := nullish_or (label e) (url e);
  item_description := if truthy (label e) then url e else JUndefined;
  item_entry := e
|}.

(** Lines 103-112: the entry to open, [None] for [undefined]. *)
Definition pickEntry (host : Host) (entries : list (UrlEntry num))
  : Action (option (UrlEntry num)) :=
  if (length entries =? 1)%nat then
    act_ret (entries !! 0%nat)
  else
    let items := quickPickItem <$> entries in
    act_call (ShowQuickPick items "Choose a URL to open") ;;;
    quick <- act_lift (quickPick_answer host items) ;;
    act_ret (item_entry <$> quick).

(** Lines 118-129. *)
Definition openPicked (host : Host) (pick : UrlEntry num) : Action unit :=
  try_catch
    (expanded <- act_lift (expandVariables (context host) (url pick)) ;;
     if String.eqb expanded ""
        || (String.length (JsString.trim expanded) =? 0)%nat
     then
       act_call (ShowErrorMessage "URL is empty after variable expansion.")
     else
       safe <- act_lift (encodeURI host expanded) ;;
       uri <- act_lift (Uri_parse host safe) ;;
       act_call (OpenExternal uri) ;;;
       _ <- act_lift (openExternal_answer host uri) ;;
       act_ret ())
    (λ err,
       act_call (ShowErrorMessage
                   ("Failed to open URL: " +:+ error_to_string err))).

Definition openUrlAction (host : Host) : Action unit :=
  entries <- act_lift (getConfigUrls host) ;;
  if (length entries =? 0)%nat then
    act_call (ShowInformationMessage "No URLs configured in `openUrl.urls`.")
  else
    pick <- pickEntry host entries ;;
    match pick with
    | None => act_ret ()
    | Some pick => openPicked host pick
    end.

(** One invocation of the command: how it ends and the calls it made. *)
Definition run (host : Host) : Completion unit * list HostCall :=
  openUrlAction host [].

(** The error notices among the calls. *)
Definition is_error_message (c : HostCall) : bool :=
  match c with
  | ShowErrorMessage _ => true
  | _ => false
  end.

End Command.
Arguments QuickPickItem num : clear implicits.
Arguments HostCall num : clear implicits.
Arguments Host num : clear implicits.

(** ** Sample inputs *)

Module Samples.

(** A setting with a string, an empty string, an empty array and an
    object whose [url] is a number. *)
Definition raw_mixed : list (JsValue Z) :=
  [JStr "https://example.com/${env:USER}"; JStr ""; JArr [];
   JObj {[ "url" := JNum 5; "label" := JStr "five" ]}].

Definition entry_empty : UrlEntry Z :=
  {| label := JUndefined; url := JStr "" |}.

Definition entries_mixed : list (UrlEntry Z) :=
  [{| label := JUndefined; url := JStr "https://example.com/${env:USER}" |};
   entry_empty; entry_empty;
   {| label := JStr "five"; url := JNum 5 |}].

(** A setting whose second element is [null]. *)
Definition raw_with_null : list (JsValue Z) :=
  [JStr "https://example.com"; JNull].

(** No editor, no workspace folder, an empty environment. *)
Definition ctx_bare : EditorContext := {|
  activeTextEditor := None;
  workspaceFolders := None;
  process_env := ∅;
  process_cwd := "/"
|}.

(** The active document is [docs/.report.final.txt] of the workspace
    [/w]; the environment defines [USER] and [workspaceFolders]. *)
Definition ctx_report : EditorContext := {|
  activeTextEditor := Some {|
    document_fsPath := "/w/docs/.report.final.txt";
    document_relativePath := "docs/.report.final.txt";
    selection_text := "";
    selection_line := 41
  |};
  workspaceFolders := Some [ {| name := "frontend"; uri_fsPath := "/a" |};
                             {| name := "backend"; uri_fsPath := "/b" |} ];
  process_env := {[ "USER" := "alice"; "workspaceFolders" := "from-env" ]};
  process_cwd := "/w"
|}.

(** One configured url, [${selectedText}], and no active editor; the
    opener would accept anything. *)
Definition host_no_selection : Host Z := {|
  configuration := JArr [JObj {[ "url" := JStr "${selectedText}" ]}];
  context := ctx_bare;
  quickPick_answer items := Normal None;
  encodeURI s := Normal s;
  Uri_parse s := Normal s;
  openExternal_answer uri := Normal true
|}.

(** Two configured urls, the user picks the second one, and the opener
    rejects it. *)
Definition host_rejecting : Host Z := {|
  configuration := JArr [JStr "https://example.com";
                         JObj {[ "url" := JStr "https://example.com/${env:USER}";
                                 "label" := JStr "mine" ]}];
  context := ctx_report;
  quickPick_answer items := Normal (items !! 1%nat);
  encodeURI s := Normal s;
  Uri_parse s := Normal s;
  openExternal_answer uri := Throw (HostError "Error: no handler")
|}.

Definition entry_selection : UrlEntry Z :=
  {| label := JUndefined; url := JStr "${selectedText}" |}.

Definition entry_plain : UrlEntry Z :=
  {| label := JUndefined; url := JStr "https://example.com" |}.

Definition entry_mine : UrlEntry Z :=
  {| label := JStr "mine"; url := JStr "https://example.com/${env:USER}" |}.

(** One configured url and an opener that accepts it. *)
Definition host_alice : Host Z := {|
  configuration := JArr [JStr "https://example.com/${env:USER}"];
  context := ctx_report;
  quickPick_answer items := Normal None;
  encodeURI s := Normal s;
  Uri_parse s := Normal s;
  openExternal_answer uri := Normal true
|}.

(** The active document is [.gitignore] at the root of the workspace. *)
Definition ctx_gitignore : EditorContext := {|
  activeTextEditor := Some {|
    document_fsPath := "/w/.gitignore";
    document_relativePath := ".gitignore";
    selection_text := "node_modules";
    selection_line := 0
  |};
  workspaceFolders := Some [ {| name := "w"; uri_fsPath := "/w" |} ];
  process_env := ∅;
  process_cwd := "/w"
|}.

End Samples.

(** ** Notions used to state further properties *)

(** The calls to the external opener, the notices and the calls to the
    picker among the calls of an invocation. *)
Definition is_open_call {num : Type} (c : HostCall num) : bool :=
  match c with
  | OpenExternal _ => true
  | _ => false
  end.

Definition is_notice {num : Type} (c : HostCall num) : bool :=
  match c with
  | ShowInformationMessage _ | ShowErrorMessage _ => true
  | _ => false
  end.

Definition is_picker_call {num : Type} (c : HostCall num) : bool :=
  match c with
  | ShowQuickPick _ _ => true
  | _ => false
  end.

(** [String(v)] returns.  An object with an own [toString] property cannot
    be printed, nor can an array that holds one, at any depth. *)
Fixpoint printable {num : Type} (v : JsValue num) : bool :=
  match v with
  | JObj props => bool_decide (props !! "toString" = None)
  | JArr elems =>
      forallb (λ e, match e with
                    | JUndefined | JNull => true
                    | _ => printable e
                    end) elems
  | _ => true
  end.

(** The raw elements that the callback of lines 9-17 turns into an entry:
    every string, every object with a truthy [url], and every other value
    but [null] that can be printed. *)
Definition accepted {num : Type} `{!JsNumber num} (it : JsValue num) : bool :=
  match it with
  | JNull => false
  | JStr _ => true
  | JObj props =>
      truthy (default JUndefined (props !! "url")) || printable it
  | _ => printable it
  end.

(** The error thrown on a raw element that is not accepted. *)
Definition rejection {num : Type} (it : JsValue num) : JsError :=
  match it with
  | JNull => TypeError "Cannot read properties of null (reading 'url')"
  | _ => TypeError "Cannot convert object to primitive value"
  end.

(** The same editor, folders and working directory with another
    environment. *)
Definition set_env (ctx : EditorContext) (env : gmap string string)
  : EditorContext := {|
  activeTextEditor := activeTextEditor ctx;
  workspaceFolders := workspaceFolders ctx;
  process_env := env;
  process_cwd := process_cwd ctx
|}.

(** * Properties *)

(** ** The model on the scenarios of the specification *)

Example normalize_mixed :
  normalizeConfigEntries (Some Samples.raw_mixed)
  = Normal Samples.entries_mixed.
Proof. by vm_compute. Qed.

Example stringify_nested_array :
  to_string (JArr [JNum 1; JNull; JArr [JStr "x"; JBool true]; JObj ∅]
             : JsValue Z)
  = Normal "1,,x,true,[object Object]".
Proof. by vm_compute. Qed.

Example stringify_own_toString :
  to_string (JArr [JStr "a"; JObj {[ "toString" := JNum 1 ]}] : JsValue Z)
  = Throw (TypeError "Cannot convert object to primitive value").
Proof. by vm_compute. Qed.

Example expand_inherited_name :
  expandVariables Samples.ctx_bare (JStr "${constructor}|${env:toString}|${nope}" : JsValue Z)
  = Normal "function Object() { [native code] }|function toString() { [native code] }|".
Proof. by vm_compute. Qed.

Example replace_scan :
  Placeholder.replace (λ expr, "<" +:+ expr +:+ ">") "a${b}c$${d}{e}${}${f"
  = "a<b>c$<d>{e}${}${f".
Proof. by vm_compute. Qed.

Example expand_every_rule :
  expandVariables Samples.ctx_report
    (JStr "${env:USER}|${workspaceFolder}|${workspaceFolder:backend}|${cwd}|${file}|${fileBasename}|${fileDirname}|${relativeFile}|${selectedText}|${lineNumber}|${USER}|${nope}"
     : JsValue Z)
  = Normal "alice|/a|/b|/w|/w/docs/.report.final.txt|.report.final.txt|/w/docs|docs/.report.final.txt||42|alice|".
Proof. by vm_compute. Qed.

Example expand_gitignore :
  expandVariables Samples.ctx_gitignore
    (JStr "${fileBasenameNoExtension}" : JsValue Z)
  = Normal ".gitignore".
Proof. by vm_compute. Qed.

Example run_alice :
  run Samples.host_alice
  = (Normal (), [OpenExternal "https://example.com/alice"]).
Proof. by vm_compute. Qed.

Example run_null :
  run {| configuration := JArr Samples.raw_with_null;
         context := Samples.ctx_bare;
         quickPick_answer items := Normal None;
         encodeURI s := Normal s;
         Uri_parse s := Normal s;
         openExternal_answer uri := Normal true |}
  = (Throw (TypeError "Cannot read properties of null (reading 'url')"), []).
Proof. by vm_compute. Qed.

(** ** Strings *)

Lemma app_cons (c : ascii) (s t : string) :
  String c s +:+ t = String c (s +:+ t).
Proof. reflexivity. Qed.

Lemma app_empty_l (s : string) : EmptyString +:+ s = s.
Proof. reflexivity. Qed.

Lemma app_empty_r (s : string) : s +:+ EmptyString = s.
Proof. induction s as [|c s IH]; [done|]. by rewrite app_cons, IH. Qed.

(** ** The placeholder scan *)

Module PlaceholderFacts.
Import Placeholder.

Lemma replace_eq (f : string → string) (s : string) :
  replace f s =
    match match_here s with
    | Some (expr, rest) => f expr +:+ replace f rest
    | None => match s with
              | EmptyString => EmptyString
              | String c s' => String c (replace f s')
              end
    end.
Proof.
  funelim (replace f s).
  - match goal with E : match_here _ = Some _ |- _ => by rewrite E end.
  - reflexivity.
  - match goal with E : match_here _ = None |- _ => by rewrite E end.
Qed.

Lemma span_inner_closed (expr post : string) :
  JsString.contains "}" expr = false →
  span_inner (expr +:+ "}" +:+ post) = (expr, String "}" post).
Proof.
  induction expr as [|c expr IH]; intros Hc; [done|].
  simpl in Hc. apply orb_false_elim in Hc as [Hc1 Hc2].
  rewrite app_cons. simpl. rewrite Hc1. by rewrite IH.
Qed.

Lemma span_inner_inv (s inner rest : string) :
  span_inner s = (inner, rest) →
  s = inner +:+ rest ∧ JsString.contains "}" inner = false.
Proof.
  revert inner rest. induction s as [|c s IH]; intros inner rest; simpl.
  - by intros [= <- <-].
  - destruct (Ascii.eqb c "}") eqn:Hc; [by intros [= <- <-]|].
    destruct (span_inner s) as [i r]. intros [= <- <-].
    destruct (IH i r eq_refl) as [-> Hi].
    split; [done|]. simpl. by rewrite Hc.
Qed.

(** A placeholder at the head of the text is what the expression matches
    there. *)
Lemma match_here_placeholder (expr post : string) :
  expr ≠ EmptyString →
  JsString.contains "}" expr = false →
  match_here ("${" +:+ expr +:+ "}" +:+ post) = Some (expr, post).
Proof.
  intros Hne Hc. change (match_here (String "$" (String "{" (expr +:+ "}" +:+ post)))
                         = Some (expr, post)).
  unfold match_here. rewrite span_inner_closed by done.
  by destruct expr.
Qed.

Lemma match_here_inv (s expr rest : string) :
  match_here s = Some (expr, rest) →
  s = "${" +:+ expr +:+ "}" +:+ rest
  ∧ expr ≠ EmptyString
  ∧ JsString.contains "}" expr = false.
Proof.
  unfold match_here. intros H.
  destruct s as [|a s]; [done|].
  destruct (Ascii.eqb_spec a "$"); [subst|by destruct a as [[][][][][][][][]]].
  destruct s as [|b s]; [done|].
  destruct (Ascii.eqb_spec b "{"); [subst|by destruct b as [[][][][][][][][]]].
  destruct (span_inner s) as [[|c inner] r] eqn:Hs; [done|].
  destruct r as [|d r]; [done|].
  destruct (Ascii.eqb_spec d "}"); [subst|by destruct d as [[][][][][][][][]]].
  injection H as <- <-.
  apply span_inner_inv in Hs as [-> Hc]. by repeat split.
Qed.

(** No match starts at a character other than the dollar sign. *)
Lemma match_here_other (c : ascii) (s : string) :
  c ≠ "$"%char → match_here (String c s) = None.
Proof.
  intros Hc. unfold match_here.
  destruct (Ascii.eqb_spec c "$"); [done|].
  by destruct c as [[][][][][][][][]].
Qed.

(** Nor at a dollar sign that no opening brace follows. *)
Lemma match_here_dollar_other (c : ascii) (s : string) :
  c ≠ "{"%char → match_here (String "$" (String c s)) = None.
Proof.
  intros Hc. unfold match_here.
  destruct (Ascii.eqb_spec c "{"); [done|].
  by destruct c as [[][][][][][][][]].
Qed.

Lemma occurs_spec (s : string) : occurs s = true ↔ has_placeholder s.
Proof.
  split.
  - induction s as [|c s IH]; [done|]. simpl.
    intros [Hm|Ho]%orb_true_iff.
    + apply bool_decide_eq_true in Hm as [[expr rest] Hm].
      apply match_here_inv in Hm as (-> & Hne & Hc).
      by exists EmptyString, expr, rest.
    + destruct (IH Ho) as (pre & expr & post & -> & Hne & Hc).
      by exists (String c pre), expr, post.
  - intros (pre & expr & post & -> & Hne & Hc).
    induction pre as [|c pre IH].
    + rewrite app_empty_l.
      pose proof (match_here_placeholder expr post Hne Hc) as Hm.
      change ("${" +:+ expr +:+ "}" +:+ post)
        with (String "$" (String "{" (expr +:+ "}" +:+ post))) in *.
      simpl occurs. rewrite Hm. done.
    + rewrite app_cons. simpl. rewrite IH. apply orb_true_r.
Qed.

(** A text without placeholder is left as it is. *)
Lemma replace_no_placeholder (f : string → string) (s : string) :
  ¬ has_placeholder s → replace f s = s.
Proof.
  rewrite <-occurs_spec. intros Ho%not_true_is_false.
  induction s as [|c s IH]; rewrite replace_eq; [done|].
  simpl in Ho. apply orb_false_elim in Ho as [Hm Ho].
  apply bool_decide_eq_false in Hm.
  destruct (match_here (String c s)) as [[??]|]; [by destruct Hm|].
  by rewrite IH.
Qed.

(** The scan copies such a prefix when a dollar sign follows it. *)
Lemma replace_prefix (f : string → string) (pre s : string) :
  no_opening pre = true →
  replace f (pre +:+ String "$" s) = pre +:+ replace f (String "$" s).
Proof.
  induction pre as [|c pre IH]; intros Hp; [done|].
  rewrite app_cons, replace_eq.
  assert (match_here (String c (pre +:+ String "$" s)) = None
          ∧ no_opening pre = true) as [-> Hp'].
  { destruct (Ascii.eqb_spec c "$") as [->|Hc].
    - destruct pre as [|d pre].
      + split; [|done]. by apply match_here_dollar_other.
      + destruct (Ascii.eqb_spec d "{") as [->|Hd]; [done|].
        split; [by apply match_here_dollar_other|].
        revert Hp. simpl.
        by destruct d as [[][][][][][][][]].
    - split; [by apply match_here_other|].
      revert Hp. simpl. by destruct c as [[][][][][][][][]]. }
  by rewrite IH.
Qed.

(** The leftmost placeholder is replaced by what the callback gives for
    its expression, and the scan goes on after its closing brace. *)
Lemma replace_leftmost (f : string → string) (pre expr post : string) :
  no_opening pre = true →
  expr ≠ EmptyString →
  JsString.contains "}" expr = false →
  replace f (pre +:+ "${" +:+ expr +:+ "}" +:+ post)
  = pre +:+ f expr +:+ replace f post.
Proof.
  intros Hp Hne Hc.
  change (pre +:+ "${" +:+ expr +:+ "}" +:+ post)
    with (pre +:+ String "$" (String "{" (expr +:+ "}" +:+ post))).
  rewrite replace_prefix by done. f_equal.
  rewrite replace_eq.
  pose proof (match_here_placeholder expr post Hne Hc) as Hm.
  change ("${" +:+ expr +:+ "}" +:+ post)
    with (String "$" (String "{" (expr +:+ "}" +:+ post))) in Hm.
  by rewrite Hm.
Qed.



End PlaceholderFacts.

(** ** [normalizeConfigEntries] *)

Section NormalizeFacts.
Context {num : Type} `{!JsNumber num}.

Lemma normalizeEntry_null :
  normalizeEntry (JNull : JsValue num)
  = Throw (TypeError "Cannot read properties of null (reading 'url')").
Proof. reflexivity. Qed.

Lemma array_map_cons {A B} (f : A → Completion B) (x : A) (xs : list A) :
  array_map f (x :: xs)
  = match f x with
    | Normal y => match array_map f xs with
                  | Normal ys => Normal (y :: ys)
                  | Throw e => Throw e
                  end
    | Throw e => Throw e
    end.
Proof. reflexivity. Qed.

(** Induction on a value and on the elements of its arrays. *)
Lemma JsValue_array_ind (P : JsValue num → Prop) :
  P JUndefined → P JNull → (∀ b, P (JBool b)) → (∀ n, P (JNum n)) →
  (∀ s, P (JStr s)) →
  (∀ elems, Forall P elems → P (JArr elems)) →
  (∀ props, P (JObj props)) →
  ∀ v, P v.
Proof.
  intros Hu Hn Hb Hnum Hs Harr Hobj. fix IH 1.
  intros [| |b|n|s|elems|props];
    [apply Hu | apply Hn | apply Hb | apply Hnum | apply Hs | | apply Hobj].
  apply Harr. induction elems as [|e es IHes]; constructor;
    [apply IH | apply IHes].
Qed.

Lemma to_string_array (elems : list (JsValue num)) :
  to_string (JArr elems)
  = (parts ← array_map (λ e, match e with
                              | JUndefined | JNull => mret EmptyString
                              | _ => to_string e
                              end) elems;
     mret (JsString.join "," parts)).
Proof. reflexivity. Qed.

(** [String(v)] returns exactly on the printable values, and throws the
    same error on all others. *)
Lemma to_string_cases (v : JsValue num) :
  match to_string v with
  | Normal _ => printable v = true
  | Throw err =>
      printable v = false
      ∧ err = TypeError "Cannot convert object to primitive value"
  end.
Proof.
  induction v as [| |b|n|s|elems IH|props] using JsValue_array_ind;
    try done.
  - by destruct b.
  - rewrite to_string_array. simpl printable.
    induction IH as [|e es He _ IHes]; [done|].
    rewrite array_map_cons. simpl forallb.
    assert (match (match e with
                   | JUndefined | JNull => mret EmptyString
                   | _ => to_string e
                   end) with
            | Normal _ =>
                match e with JUndefined | JNull => true | _ => printable e end
                = true
            | Throw err =>
                match e with JUndefined | JNull => true | _ => printable e end
                = false
                ∧ err = TypeError "Cannot convert object to primitive value"
            end) as Hhead by (by destruct e).
    destruct (match e with
              | JUndefined | JNull => mret EmptyString
              | _ => to_string e
              end) as [p|err].
    + rewrite Hhead. simpl.
      destruct (array_map _ es) as [ps|err]; simpl in *; done.
    + destruct Hhead as [-> ->]. done.
  - simpl. destruct (props !! "toString") eqn:Hp.
    + split; [|done]. apply bool_decide_eq_false. congruence.
    + by apply bool_decide_eq_true.
Qed.

Lemma normalizeEntry_object (props : gmap string (JsValue num)) :
  normalizeEntry (JObj props)
  = if truthy (default JUndefined (props !! "url"))
    then Normal {| label := default JUndefined (props !! "label");
                   url := default JUndefined (props !! "url") |}
    else (s ← to_string (JObj props);
          mret {| label := JUndefined; url := JStr s |}).
Proof.
  unfold normalizeEntry. simpl.
  by destruct (truthy (default JUndefined (props !! "url"))).
Qed.

Lemma normalizeEntry_array (elems : list (JsValue num)) :
  normalizeEntry (JArr elems)
  = (s ← to_string (JArr elems);
     mret {| label := JUndefined; url := JStr s |}).
Proof. reflexivity. Qed.

(** The callback returns exactly on the accepted elements. *)
Lemma normalizeEntry_cases (it : JsValue num) :
  match normalizeEntry it with
  | Normal _ => accepted it = true
  | Throw err => accepted it = false ∧ err = rejection it
  end.
Proof.
  destruct it as [| |b|n|s|elems|props]; try done.
  - by destruct b.
  - rewrite normalizeEntry_array. unfold accepted.
    pose proof (to_string_cases (JArr elems)) as Hs.
    destruct (to_string (JArr elems)); [done|]. by destruct Hs as [-> ->].
  - rewrite normalizeEntry_object. unfold accepted.
    destruct (truthy (default JUndefined (props !! "url"))); [done|].
    pose proof (to_string_cases (JObj props)) as Hs.
    destruct (to_string (JObj props)); [done|]. by destruct Hs as [-> ->].
Qed.

(** What [raw.map] returns, position by position. *)
Lemma array_map_lookup {A B} (f : A → Completion B) (xs : list A) (ys : list B) :
  array_map f xs = Normal ys →
  length ys = length xs
  ∧ ∀ i x, xs !! i = Some x → ∃ y, f x = Normal y ∧ ys !! i = Some y.
Proof.
  revert ys. induction xs as [|x xs IH]; intros ys.
  - intros [= <-]. split; [done|]. intros i x Hi. by destruct i.
  - rewrite array_map_cons.
    destruct (f x) as [y|] eqn:Hy; [|done].
    destruct (array_map f xs) as [ys'|]; [|done].
    intros [= <-]. destruct (IH ys' eq_refl) as [Hlen Hnth].
    split; [simpl; by rewrite Hlen|].
    intros [|i] x' Hi; simpl in *.
    + injection Hi as <-. by exists y.
    + by apply Hnth.
Qed.

Lemma array_map_throws {A B} (f : A → Completion B) (xs : list A) (err : JsError) :
  array_map f xs = Throw err → ∃ x e, x ∈ xs ∧ f x = Throw e.
Proof.
  revert err. induction xs as [|x xs IH]; intros err; [done|].
  rewrite array_map_cons.
  destruct (f x) as [y|e] eqn:Hy.
  - destruct (array_map f xs) as [ys'|e]; [done|].
    intros _. destruct (IH e eq_refl) as (x' & e' & Hin & Hx').
    exists x', e'. split; [by right|done].
  - intros _. exists x, e. split; [by left|done].
Qed.

(** When [raw.map] throws, the error is that of the first element on which
    the callback throws. *)
Lemma array_map_first_throw {A B} (f : A → Completion B) (xs : list A)
    (err : JsError) :
  array_map f xs = Throw err →
  ∃ pre x post,
    xs = pre ++ x :: post
    ∧ f x = Throw err
    ∧ ∀ x', x' ∈ pre → ∃ y, f x' = Normal y.
Proof.
  induction xs as [|x xs IH]; [done|].
  rewrite array_map_cons.
  destruct (f x) as [y|e] eqn:Hy.
  - destruct (array_map f xs) as [ys'|e]; [done|].
    intros [= ->]. destruct (IH eq_refl) as (pre & x' & post & -> & Hx' & Hpre).
    exists (x :: pre), x', post. split; [done|]. split; [done|].
    intros z [->|Hz]%elem_of_cons; eauto.
  - intros [= ->]. exists [], x, xs. split; [done|]. split; [done|].
    by intros z ?%elem_of_nil.
Qed.

(** The url of the entry made from [it]. *)
Lemma normalizeEntry_url (it : JsValue num) (e : UrlEntry num) :
  normalizeEntry it = Normal e →
  ((∃ s, it = JStr s ∧ url e = JStr s)
   ∨ (∃ props u, it = JObj props ∧ props !! "url" = Some u
        ∧ truthy u = true ∧ url e = u)
   ∨ (∃ props, it = JObj props
        ∧ truthy (default JUndefined (props !! "url")) = false
        ∧ url e = JStr "[object Object]")
   ∨ (it = JUndefined ∧ url e = JStr "undefined")
   ∨ (∃ b, it = JBool b ∧ url e = JStr (if b then "true" else "false"))
   ∨ (∃ n, it = JNum n ∧ url e = JStr (num_to_string n))
   ∨ (∃ elems s, it = JArr elems ∧ to_string (JArr elems) = Normal s
        ∧ url e = JStr s))
  ∧ ((∃ s, url e = JStr s ∧ s ≠ EmptyString)
     ∨ it = JStr EmptyString
     ∨ (∃ elems, it = JArr elems ∧ url e = JStr EmptyString)
     ∨ (∃ props, it = JObj props
          ∧ truthy (url e) = true ∧ typeof (url e) ≠ "string")).
Proof.
  destruct it as [| |b|n|s|elems|props].
  - intros [= <-]. split; [|left; by eexists]. do 3 right. by left.
  - done.
  - destruct b; intros [= <-]; (split; [|left; by eexists]);
      do 4 right; left; [by exists true | by exists false].
  - intros [= <-]. split.
    + do 5 right. left. by exists n.
    + left. eexists. split; [done|]. apply num_to_string_nonempty.
  - intros [= <-]. split; [left; by exists s|].
    destruct s as [|c s]; [by right; left|]. left. by eexists.
  - rewrite normalizeEntry_array.
    destruct (to_string (JArr elems)) as [s|] eqn:Hs; [|done].
    intros [= <-]. split.
    + do 6 right. by exists elems, s.
    + destruct s as [|c s]; [right; right; left; by exists elems|].
      left. by eexists.
  - rewrite normalizeEntry_object.
    destruct (truthy (default JUndefined (props !! "url"))) eqn:Ht.
    + intros [= <-]. simpl.
      destruct (props !! "url") as [u|] eqn:Hu; [|done]. simpl in *.
      split; [right; left; by exists props, u|].
      destruct u as [| |b|n|s|elems'|props'];
        try (do 3 right; exists props; by repeat split).
      left. exists s. split; [done|]. by destruct s.
    + simpl. destruct (props !! "toString"); [done|].
      intros [= <-]. split; [|left; by eexists].
      right; right; left. by exists props.
Qed.

End NormalizeFacts.

(** C2. A [null] element of the setting makes [normalizeConfigEntries]
    throw a [TypeError]: [typeof null] is ['object'], so line 13 reads
    [it.url] of [null] before the stringifying fallback of line 16 is
    reached. *)
Theorem normalize_null_throws :
  normalizeConfigEntries (Some Samples.raw_with_null)
  = Throw (TypeError "Cannot read properties of null (reading 'url')").
Proof. reflexivity. Qed.

(** C4, as the claim states it, fails: the empty string is a string, so
    line 11 copies it and the entry has an empty url. *)
Lemma normalize_empty_string_url :
  ∃ e : UrlEntry Z,
    normalizeConfigEntries (Some [JStr EmptyString]) = Normal [e]
    ∧ url e = JStr EmptyString.
Proof. eexists. split; reflexivity. Qed.

(** C4, amended. [normalizeConfigEntries] drops no element: what it
    returns is as long as the raw list, and each entry comes from the raw
    element at the same position, its url being that element when it is a
    string, its [url] field when that is truthy, and what the element
    prints as otherwise.  So the url is a non-empty string, except that the
    empty string and an array printing as the empty string give the url
    [""], and an object whose [url] is a truthy value other than a string
    keeps that value. *)
Theorem normalize_url_nonempty_unless
    {num : Type} `{!JsNumber num}
    (raw : list (JsValue num)) (out : list (UrlEntry num)) :
  normalizeConfigEntries (Some raw) = Normal out →
  length out = length raw
  ∧ ∀ i e, out !! i = Some e →
      ∃ it, raw !! i = Some it
        ∧ ((∃ s, it = JStr s ∧ url e = JStr s)
           ∨ (∃ props u, it = JObj props ∧ props !! "url" = Some u
                ∧ truthy u = true ∧ url e = u)
           ∨ (∃ props, it = JObj props
                ∧ truthy (default JUndefined (props !! "url")) = false
                ∧ url e = JStr "[object Object]")
           ∨ (it = JUndefined ∧ url e = JStr "undefined")
           ∨ (∃ b, it = JBool b
                ∧ url e = JStr (if b then "true" else "false"))
           ∨ (∃ n, it = JNum n ∧ url e = JStr (num_to_string n))
           ∨ (∃ elems s, it = JArr elems
                ∧ to_string (JArr elems) = Normal s ∧ url e = JStr s))
        ∧ ((∃ s, url e = JStr s ∧ s ≠ EmptyString)
           ∨ it = JStr EmptyString
           ∨ (∃ elems, it = JArr elems ∧ url e = JStr EmptyString)
           ∨ (∃ props, it = JObj props
                ∧ truthy (url e) = true ∧ typeof (url e) ≠ "string")).
Proof.
  simpl. intros Hmap.
  apply array_map_lookup in Hmap as [Hlen Hnth].
  split; [done|]. intros i e Hi.
  destruct (raw !! i) as [it|] eqn:Hit.
  - exists it. split; [done|].
    destruct (Hnth i it Hit) as (e' & He' & Hi').
    assert (e' = e) as -> by congruence.
    by apply normalizeEntry_url.
  - apply lookup_ge_None in Hit. apply lookup_lt_Some in Hi. lia.
Qed.

Lemma normalize_url_nonempty_unless_witness :
  length Samples.entries_mixed = length Samples.raw_mixed
  ∧ ∃ it, Samples.raw_mixed !! 2%nat = Some it
      ∧ ((∃ s, it = JStr s ∧ url Samples.entry_empty = JStr s)
         ∨ (∃ props u, it = JObj props ∧ props !! "url" = Some u
              ∧ truthy u = true ∧ url Samples.entry_empty = u)
         ∨ (∃ props, it = JObj props
              ∧ truthy (default JUndefined (props !! "url")) = false
              ∧ url Samples.entry_empty = JStr "[object Object]")
         ∨ (it = JUndefined ∧ url Samples.entry_empty = JStr "undefined")
         ∨ (∃ b, it = JBool b
              ∧ url Samples.entry_empty = JStr (if b then "true" else "false"))
         ∨ (∃ n, it = JNum n
              ∧ url Samples.entry_empty = JStr (num_to_string n))
         ∨ (∃ elems s, it = JArr elems
              ∧ to_string (JArr elems) = Normal s
              ∧ url Samples.entry_empty = JStr s))
      ∧ ((∃ s, url Samples.entry_empty = JStr s ∧ s ≠ EmptyString)
         ∨ it = JStr EmptyString
         ∨ (∃ elems, it = JArr elems
              ∧ url Samples.entry_empty = JStr EmptyString)
         ∨ (∃ props, it = JObj props
              ∧ truthy (url Samples.entry_empty) = true
              ∧ typeof (url Samples.entry_empty) ≠ "string")).
Proof.
  destruct (normalize_url_nonempty_unless Samples.raw_mixed
              Samples.entries_mixed) as [Hlen Hnth];
    [vm_compute; reflexivity|].
  split; [exact Hlen|].
  exact (Hnth 2%nat Samples.entry_empty eq_refl).
Defined.

(** C5. When [normalizeConfigEntries] returns, its output is as long as the
    raw list and the entry at each position is the one the callback makes
    from the raw element at that position.  It throws only when the
    callback throws on an element, and then with the error of the first
    such element. *)
Theorem normalize_length_order
    {num : Type} `{!JsNumber num} (raw : list (JsValue num)) :
  match normalizeConfigEntries (Some raw) with
  | Normal out =>
      length out = length raw
      ∧ ∀ i it, raw !! i = Some it →
          ∃ e, normalizeEntry it = Normal e ∧ out !! i = Some e
  | Throw err =>
      ∃ pre it post,
        raw = pre ++ it :: post
        ∧ normalizeEntry it = Throw err
        ∧ ∀ it', it' ∈ pre → ∃ e, normalizeEntry it' = Normal e
  end.
Proof.
  simpl. destruct (array_map normalizeEntry raw) as [out|err] eqn:Hmap.
  - by apply array_map_lookup.
  - by apply array_map_first_throw.
Qed.

(** ** [expandVariables] *)

Lemma split_no_sep (sep : ascii) (s : string) :
  JsString.contains sep s = false → JsString.split sep s = [s].
Proof.
  induction s as [|c s IH]; [done|]. simpl.
  intros [Hc Hs]%orb_false_elim. rewrite Hc, IH; done.
Qed.

Lemma split_snoc (sep : ascii) (d seg : string) :
  JsString.contains sep seg = false →
  ∃ p ps, JsString.split sep (d +:+ String sep seg) = p :: ps ++ [seg].
Proof.
  intros Hseg. induction d as [|c d (p & ps & IH)].
  - rewrite app_empty_l. simpl. rewrite Ascii.eqb_refl, split_no_sep by done.
    by exists EmptyString, [].
  - rewrite app_cons. simpl. rewrite IH.
    destruct (Ascii.eqb c sep).
    + by exists EmptyString, (p :: ps).
    + by exists (String c p), ps.
Qed.

(** The last segment of a path is what follows its last slash. *)
Lemma pop_split_basename (d seg : string) :
  JsString.contains "/" seg = false →
  JsString.pop (JsString.split "/" (d +:+ String "/" seg)) = Some seg.
Proof.
  intros Hseg. destruct (split_snoc "/" d seg Hseg) as (p & ps & ->).
  unfold JsString.pop. by rewrite app_comm_cons, last_snoc.
Qed.

Lemma startsWith_workspaceFolder_not_env (expr : string) :
  JsString.startsWith "workspaceFolder" expr = true →
  JsString.startsWith "env:" expr = false ∧ expr ≠ EmptyString.
Proof.
  unfold JsString.startsWith. destruct expr as [|c expr]; [done|].
  destruct c as [[][][][][][][][]]; try done.
Qed.

(** Without colon, every expression that starts with [workspaceFolder]
    takes the branch of line 36. *)
Lemma resolve_workspaceFolder_prefix (ctx : EditorContext) (expr : string) :
  JsString.startsWith "workspaceFolder" expr = true →
  JsString.contains ":" expr = false →
  resolveVariable ctx expr = first_folder_path ctx.
Proof.
  intros Hw Hc. unfold resolveVariable.
  destruct (startsWith_workspaceFolder_not_env expr Hw) as [-> _].
  by rewrite Hw, split_no_sep.
Qed.


Section ExpandFacts.
Context {num : Type} `{!JsNumber num}.
Import Placeholder PlaceholderFacts.

Lemma expand_string (ctx : EditorContext) (t : string) :
  expandVariables ctx (JStr t : JsValue num)
  = Normal (replace (resolveVariable ctx) t).
Proof.
  unfold expandVariables. destruct t as [|c t]; [|done].
  simpl. by rewrite replace_eq.
Qed.

(** The leftmost placeholder of a template gives way to the value of its
    expression. *)
Lemma expand_leftmost (ctx : EditorContext) (pre expr post : string) :
  no_opening pre = true →
  expr ≠ EmptyString →
  JsString.contains "}" expr = false →
  expandVariables ctx (JStr (pre +:+ "${" +:+ expr +:+ "}" +:+ post) : JsValue num)
  = Normal (pre +:+ resolveVariable ctx expr
              +:+ replace (resolveVariable ctx) post).
Proof.
  intros Hp Hne Hc. by rewrite expand_string, replace_leftmost.
Qed.

End ExpandFacts.

(** C1, as the claim states it, fails: with the active document
    [docs/.report.final.txt] the template [${fileBasenameNoExtension}] does
    not give back the basename [.report.final.txt]. *)
Lemma fileBasenameNoExtension_multi_dot_changed :
  expandVariables Samples.ctx_report
    (JStr "${fileBasenameNoExtension}" : JsValue Z)
  ≠ Normal ".report.final.txt".
Proof. vm_compute. discriminate. Qed.

(** C1, amended. For an active document whose relative basename is
    [.report.final.txt], [${fileBasenameNoExtension}] expands to
    [.report.final]: the text from the last dot on is removed, since that
    dot is not the first character. *)
Theorem fileBasenameNoExtension_drops_last_suffix
    {num : Type} `{!JsNumber num}
    (ctx : EditorContext) (ed : TextEditor) (dir : string) :
  activeTextEditor ctx = Some ed →
  document_relativePath ed = ".report.final.txt"
  ∨ document_relativePath ed = dir +:+ "/.report.final.txt" →
  expandVariables ctx (JStr "${fileBasenameNoExtension}" : JsValue num)
  = Normal ".report.final".
Proof.
  intros Hed Hpath.
  rewrite (expand_leftmost ctx "" "fileBasenameNoExtension" "") by done.
  rewrite PlaceholderFacts.replace_eq. simpl Placeholder.match_here.
  rewrite app_empty_l, app_empty_r. f_equal.
  unfold resolveVariable. simpl. rewrite Hed.
  assert (JsString.pop (JsString.split "/" (document_relativePath ed))
          = Some ".report.final.txt") as ->.
  { destruct Hpath as [-> | ->]; [done|].
    by apply (pop_split_basename dir ".report.final.txt"). }
  reflexivity.
Qed.

Lemma fileBasenameNoExtension_drops_last_suffix_witness :
  expandVariables Samples.ctx_report
    (JStr "${fileBasenameNoExtension}" : JsValue Z)
  = Normal ".report.final".
Proof.
  apply (fileBasenameNoExtension_drops_last_suffix Samples.ctx_report
           {| document_fsPath := "/w/docs/.report.final.txt";
              document_relativePath := "docs/.report.final.txt";
              selection_text := ""; selection_line := 41 |} "docs");
    [reflexivity | right; reflexivity].
Defined.




(** C8. A result of expansion that contains no placeholder expands to
    itself. *)
Theorem expand_idempotent
    {num : Type} `{!JsNumber num}
    (ctx : EditorContext) (template : JsValue num) (out : string) :
  expandVariables ctx template = Normal out →
  ¬ has_placeholder out →
  expandVariables ctx (JStr out : JsValue num) = Normal out.
Proof.
  intros _ Hno.
  by rewrite expand_string, PlaceholderFacts.replace_no_placeholder.
Qed.

Lemma expand_idempotent_witness :
  expandVariables Samples.ctx_report
    (JStr "https://example.com/alice/.report.final.txt:42" : JsValue Z)
  = Normal "https://example.com/alice/.report.final.txt:42".
Proof.
  apply (expand_idempotent Samples.ctx_report
           (JStr "https://example.com/${env:USER}/${fileBasename}:${lineNumber}"));
    [vm_compute; reflexivity|].
  intros H%PlaceholderFacts.occurs_spec. vm_compute in H. discriminate.
Defined.

(** C10. A placeholder whose expression starts with [workspaceFolder],
    is not [workspaceFolder] itself and has no colon expands to the path of
    the first workspace folder, or to the empty string when there is none,
    whatever the environment holds under that name. *)
Theorem workspaceFolder_prefix_first_folder
    {num : Type} `{!JsNumber num}
    (ctx : EditorContext) (pre expr post : string) :
  Placeholder.no_opening pre = true →
  JsString.startsWith "workspaceFolder" expr = true →
  expr ≠ "workspaceFolder" →
  JsString.contains ":" expr = false →
  JsString.contains "}" expr = false →
  resolveVariable ctx expr = first_folder_path ctx
  ∧ expandVariables ctx
      (JStr (pre +:+ "${" +:+ expr +:+ "}" +:+ post) : JsValue num)
    = Normal (pre +:+ first_folder_path ctx
                +:+ Placeholder.replace (resolveVariable ctx) post).
Proof.
  intros Hp Hw _ Hcolon Hclose.
  pose proof (resolve_workspaceFolder_prefix ctx expr Hw Hcolon) as Hr.
  split; [done|].
  destruct (startsWith_workspaceFolder_not_env expr Hw) as [_ Hne].
  by rewrite expand_leftmost, Hr.
Qed.

Lemma workspaceFolder_prefix_first_folder_witness :
  resolveVariable Samples.ctx_report "workspaceFolders" = "/a"
  ∧ expandVariables Samples.ctx_report
      (JStr ("file://" +:+ "${" +:+ "workspaceFolders" +:+ "}" +:+ "/x")
       : JsValue Z)
    = Normal ("file://" +:+ "/a"
                +:+ Placeholder.replace (resolveVariable Samples.ctx_report) "/x").
Proof.
  apply (workspaceFolder_prefix_first_folder Samples.ctx_report
           "file://" "workspaceFolders" "/x"); [reflexivity | reflexivity | discriminate | reflexivity | reflexivity].
Defined.

(** ** The command *)

Lemma trimStart_allWhiteSpace (s : string) :
  JsString.allWhiteSpace s = true → JsString.trimStart s = EmptyString.
Proof.
  induction s as [|c s IH]; [done|]. simpl.
  intros [Hc Hs]%andb_true_iff. rewrite Hc. auto.
Qed.

Lemma trimEnd_nonempty (c : ascii) (s : string) :
  JsString.isWhiteSpace c = false →
  JsString.trimEnd (String c s) ≠ EmptyString.
Proof. intros Hc. simpl. destruct (JsString.trimEnd s); by rewrite ?Hc. Qed.

Lemma trimStart_not_allWhiteSpace (s : string) :
  JsString.allWhiteSpace s = false →
  ∃ c s', JsString.trimStart s = String c s' ∧ JsString.isWhiteSpace c = false.
Proof.
  induction s as [|c s IH]; [done|]. simpl.
  destruct (JsString.isWhiteSpace c) eqn:Hc; simpl; [done|].
  intros _. by exists c, s.
Qed.

(** The test of line 120 holds exactly of the strings made of white space
    only, the empty one among them. *)
Lemma blank_test (s : string) :
  String.eqb s "" || (String.length (JsString.trim s) =? 0)%nat
  = JsString.allWhiteSpace s.
Proof.
  destruct (JsString.allWhiteSpace s) eqn:Hs.
  - unfold JsString.trim. rewrite trimStart_allWhiteSpace by done.
    apply orb_true_r.
  - destruct (trimStart_not_allWhiteSpace s Hs) as (c & s' & Ht & Hc).
    unfold JsString.trim. rewrite Ht.
    pose proof (trimEnd_nonempty c s' Hc) as Hne.
    destruct s as [|a s]; [done|].
    by destruct (JsString.trimEnd (String c s')).
Qed.

Section CommandFacts.
Context {num : Type} `{!JsNumber num}.

Lemma pickEntry_single (host : Host num) (e : UrlEntry num) (log : list (HostCall num)) :
  pickEntry host [e] log = (Normal (Some e), log).
Proof. reflexivity. Qed.

(** [pickEntry] calls nothing but the picker, and at most once. *)
Lemma pickEntry_log (host : Host num) (entries : list (UrlEntry num))
    (log log' : list (HostCall num)) (r : Completion (option (UrlEntry num))) :
  pickEntry host entries log = (r, log') →
  log' = log ∨ ∃ items placeHolder, log' = log ++ [ShowQuickPick items placeHolder].
Proof.
  unfold pickEntry. destruct (length entries =? 1)%nat.
  - intros [= _ <-]. by left.
  - unfold act_bind, act_call, act_lift, act_ret.
    destruct (quickPick_answer host _); intros [= _ <-]; right; eauto.
Qed.

(** After the configuration is read and an entry picked, the command is
    [openPicked]. *)
Lemma run_picked (host : Host num) (entries : list (UrlEntry num))
    (pick : UrlEntry num) (log : list (HostCall num)) :
  getConfigUrls host = Normal entries →
  entries ≠ [] →
  pickEntry host entries [] = (Normal (Some pick), log) →
  run host = openPicked host pick log.
Proof.
  intros Hcfg Hne Hpick. unfold run, openUrlAction, act_bind, act_lift.
  rewrite Hcfg. destruct entries as [|e es]; [done|].
  change (length (e :: es) =? 0)%nat with false. cbv beta iota.
  by rewrite Hpick.
Qed.

(** Lines 118-129 never throw: they end normally after one error notice,
    after one call to the opener, or after one call to the opener and one
    error notice. *)
Lemma openPicked_outcome (host : Host num) (pick : UrlEntry num)
    (log : list (HostCall num)) :
  ∃ calls,
    openPicked host pick log = (Normal (), log ++ calls)
    ∧ ((∃ m, calls = [ShowErrorMessage m])
       ∨ (∃ uri, calls = [OpenExternal uri])
       ∨ (∃ uri m, calls = [OpenExternal uri; ShowErrorMessage m])).
Proof.
  unfold openPicked, try_catch, act_bind, act_lift, act_call, act_ret.
  destruct (expandVariables (context host) (url pick)) as [expanded|err];
    [|eexists; split; [done|eauto]].
  destruct (_ || _); [eexists; split; [done|eauto]|].
  destruct (encodeURI host expanded) as [safe|err];
    [|eexists; split; [done|eauto]].
  destruct (Uri_parse host safe) as [uri|err];
    [|eexists; split; [done|eauto]].
  destruct (openExternal_answer host uri) as [ok|err].
  - eexists; split; [done|eauto].
  - exists [OpenExternal uri; ShowErrorMessage
              ("Failed to open URL: " +:+ error_to_string err)].
    rewrite <-app_assoc. eauto 6.
Qed.

Lemma openPicked_blank (host : Host num) (pick : UrlEntry num)
    (log : list (HostCall num)) (expanded : string) :
  expandVariables (context host) (url pick) = Normal expanded →
  JsString.allWhiteSpace expanded = true →
  openPicked host pick log
  = (Normal (),
     log ++ [ShowErrorMessage "URL is empty after variable expansion."]).
Proof.
  intros Hexp Hblank.
  unfold openPicked, try_catch, act_bind, act_lift, act_call, act_ret.
  by rewrite Hexp, blank_test, Hblank.
Qed.

Lemma openPicked_failure (host : Host num) (pick : UrlEntry num)
    (log : list (HostCall num)) (expanded : string) (err : JsError) :
  expandVariables (context host) (url pick) = Normal expanded →
  JsString.allWhiteSpace expanded = false →
  (encodeURI host expanded = Throw err
   ∨ ∃ safe, encodeURI host expanded = Normal safe
       ∧ (Uri_parse host safe = Throw err
          ∨ ∃ uri, Uri_parse host safe = Normal uri
              ∧ openExternal_answer host uri = Throw err)) →
  ∃ calls,
    openPicked host pick log
    = (Normal (),
       log ++ calls ++ [ShowErrorMessage
                          ("Failed to open URL: " +:+ error_to_string err)])
    ∧ (calls = [] ∨ ∃ uri, calls = [OpenExternal uri]).
Proof.
  intros Hexp Hblank Hfail.
  unfold openPicked, try_catch, act_bind, act_lift, act_call, act_ret.
  rewrite Hexp, blank_test, Hblank.
  destruct Hfail as [-> | (safe & -> & [-> | (uri & -> & ->)])].
  - exists []. eauto.
  - exists []. eauto.
  - exists [OpenExternal uri]. rewrite <-app_assoc. eauto.
Qed.

End CommandFacts.

(** A call of another kind is not among explicitly listed calls. *)
Ltac absent_call :=
  let H := fresh "Hin" in
  intros H; simpl in H;
  rewrite ?elem_of_app, ?elem_of_cons, ?elem_of_nil in H;
  intuition discriminate.

(** C6. When the configuration normalizes to exactly one entry, that entry
    is the one picked, and the command never calls the picker. *)
Theorem single_entry_skips_picker
    {num : Type} `{!JsNumber num} (host : Host num) (e : UrlEntry num) :
  getConfigUrls host = Normal [e] →
  (∀ log, pickEntry host [e] log = (Normal (Some e), log))
  ∧ run host = openPicked host e []
  ∧ ∀ items placeHolder, ShowQuickPick items placeHolder ∉ (run host).2.
Proof.
  intros Hcfg.
  assert (run host = openPicked host e []) as Hrun
    by (by apply (run_picked host [e] e [])).
  split; [done|]. split; [done|].
  intros items placeHolder. rewrite Hrun.
  destruct (openPicked_outcome host e []) as (calls & -> & Hcalls).
  simpl.
  destruct Hcalls as [[m ->] | [[uri ->] | (uri & m & ->)]]; absent_call.
Qed.

Lemma single_entry_skips_picker_witness :
  (∀ log, pickEntry Samples.host_no_selection [Samples.entry_selection] log
          = (Normal (Some Samples.entry_selection), log))
  ∧ run Samples.host_no_selection
    = openPicked Samples.host_no_selection Samples.entry_selection []
  ∧ ∀ items placeHolder,
      ShowQuickPick items placeHolder ∉ (run Samples.host_no_selection).2.
Proof.
  apply (single_entry_skips_picker Samples.host_no_selection
           Samples.entry_selection).
  vm_compute. reflexivity.
Defined.

(** C7. When the url of the picked entry expands to the empty string or to
    white space only, the command shows the error notice
    "URL is empty after variable expansion." and ends there; it never calls
    the external opener. *)
Theorem blank_expansion_reports_error
    {num : Type} `{!JsNumber num}
    (host : Host num) (entries : list (UrlEntry num)) (pick : UrlEntry num)
    (log : list (HostCall num)) (expanded : string) :
  getConfigUrls host = Normal entries →
  entries ≠ [] →
  pickEntry host entries [] = (Normal (Some pick), log) →
  expandVariables (context host) (url pick) = Normal expanded →
  JsString.allWhiteSpace expanded = true →
  run host
  = (Normal (),
     log ++ [ShowErrorMessage "URL is empty after variable expansion."])
  ∧ ∀ uri, OpenExternal uri ∉ (run host).2.
Proof.
  intros Hcfg Hne Hpick Hexp Hblank.
  rewrite (run_picked host entries pick log) by done.
  rewrite (openPicked_blank host pick log expanded) by done.
  split; [done|]. intros uri. simpl.
  apply pickEntry_log in Hpick as [-> | (items & ph & ->)]; absent_call.
Qed.

Lemma blank_expansion_reports_error_witness :
  run Samples.host_no_selection
  = (Normal (),
     [] ++ [ShowErrorMessage "URL is empty after variable expansion."])
  ∧ ∀ uri, OpenExternal uri ∉ (run Samples.host_no_selection).2.
Proof.
  apply (blank_expansion_reports_error Samples.host_no_selection
           [Samples.entry_selection] Samples.entry_selection [] "");
    [vm_compute; reflexivity | discriminate | reflexivity
    | vm_compute; reflexivity | reflexivity].
Defined.

(** C9. When encoding the expanded url, parsing it or the external opener
    fails, the command ends normally: the failure is caught and shown in
    one error notice, the only error notice of the invocation, whose text
    is "Failed to open URL: " followed by what [String] prints for the
    error: its description, after [TypeError: ] for a [TypeError]. *)
Theorem opener_failure_reported
    {num : Type} `{!JsNumber num}
    (host : Host num) (entries : list (UrlEntry num)) (pick : UrlEntry num)
    (log : list (HostCall num)) (expanded : string) (err : JsError) :
  getConfigUrls host = Normal entries →
  entries ≠ [] →
  pickEntry host entries [] = (Normal (Some pick), log) →
  expandVariables (context host) (url pick) = Normal expanded →
  JsString.allWhiteSpace expanded = false →
  (encodeURI host expanded = Throw err
   ∨ ∃ safe, encodeURI host expanded = Normal safe
       ∧ (Uri_parse host safe = Throw err
          ∨ ∃ uri, Uri_parse host safe = Normal uri
              ∧ openExternal_answer host uri = Throw err)) →
  ∃ calls,
    run host
    = (Normal (),
       log ++ calls
         ++ [ShowErrorMessage
               ("Failed to open URL: "
                  +:+ match err with
                      | TypeError message => "TypeError: " +:+ message
                      | HostError description => description
                      end)])
    ∧ (calls = [] ∨ ∃ uri, calls = [OpenExternal uri])
    ∧ filter is_error_message (run host).2
      = [ShowErrorMessage
           ("Failed to open URL: "
              +:+ match err with
                  | TypeError message => "TypeError: " +:+ message
                  | HostError description => description
                  end)].
Proof.
  intros Hcfg Hne Hpick Hexp Hblank Hfail.
  rewrite (run_picked host entries pick log) by done.
  destruct (openPicked_failure host pick log expanded err Hexp Hblank Hfail)
    as (calls & -> & Hcalls).
  unfold error_to_string.
  exists calls. split; [done|]. split; [done|]. simpl.
  apply pickEntry_log in Hpick as [-> | (items & ph & ->)];
    destruct Hcalls as [-> | [uri ->]]; reflexivity.
Qed.

Lemma opener_failure_reported_witness :
  ∃ calls,
    run Samples.host_rejecting
    = (Normal (),
       [ShowQuickPick (quickPickItem <$> [Samples.entry_plain; Samples.entry_mine])
          "Choose a URL to open"]
       ++ calls
       ++ [ShowErrorMessage "Failed to open URL: Error: no handler"])
    ∧ (calls = [] ∨ ∃ uri, calls = [OpenExternal uri])
    ∧ filter is_error_message (run Samples.host_rejecting).2
      = [ShowErrorMessage "Failed to open URL: Error: no handler"].
Proof.
  apply (opener_failure_reported Samples.host_rejecting
           [Samples.entry_plain; Samples.entry_mine] Samples.entry_mine
           [ShowQuickPick (quickPickItem <$> [Samples.entry_plain; Samples.entry_mine])
              "Choose a URL to open"]
           "https://example.com/alice" (HostError "Error: no handler"));
    [vm_compute; reflexivity | discriminate | reflexivity
    | vm_compute; reflexivity | reflexivity |].
  right. exists "https://example.com/alice". split; [reflexivity|].
  right. exists "https://example.com/alice". split; reflexivity.
Defined.


(** * Further properties *)

(** ** [normalizeConfigEntries], beyond the claims *)

Section NormalizeMore.
Context {num : Type} `{!JsNumber num}.

Lemma array_map_app {A B} (f : A → Completion B) (xs ys : list A) :
  array_map f (xs ++ ys)
  = (xs' ← array_map f xs; ys' ← array_map f ys; mret (xs' ++ ys')).
Proof.
  induction xs as [|x xs IH]; simpl.
  - by destruct (array_map f ys).
  - destruct (f x) as [y|e]; [|done]. simpl. rewrite IH.
    destruct (array_map f xs) as [xs'|e]; [|done]. simpl.
    by destruct (array_map f ys).
Qed.

Lemma normalize_cases (raw : list (JsValue num)) :
  match normalizeConfigEntries (Some raw) with
  | Normal _ => forallb accepted raw = true
  | Throw err =>
      ∃ pre it post,
        raw = pre ++ it :: post
        ∧ forallb accepted pre = true
        ∧ accepted it = false
        ∧ err = rejection it
  end.
Proof.
  simpl. induction raw as [|x raw IH]; [done|].
  rewrite array_map_cons. simpl forallb.
  pose proof (normalizeEntry_cases x) as Hx.
  destruct (normalizeEntry x) as [e|err].
  - rewrite Hx. simpl.
    destruct (array_map normalizeEntry raw) as [out|err]; [done|].
    destruct IH as (pre & it & post & -> & Hpre & Hit & ->).
    exists (x :: pre), it, post. simpl. by rewrite Hx, Hpre.
  - destruct Hx as [Hx ->]. by exists [], x, raw.
Qed.

End NormalizeMore.

(** X1. [normalizeConfigEntries] returns exactly when every raw element is
    accepted: a string, an object with a truthy [url], or a value other
    than [null] that [String] can print.  Otherwise it throws the error of
    the first element that is not: the [TypeError] of reading [url] on
    [null], or the one of printing an object that has a [toString]
    property of its own. *)
Theorem normalize_returns_iff_accepted
    {num : Type} `{!JsNumber num} (raw : list (JsValue num)) :
  match normalizeConfigEntries (Some raw) with
  | Normal _ => forallb accepted raw = true
  | Throw err =>
      ∃ pre it post,
        raw = pre ++ it :: post
        ∧ forallb accepted pre = true
        ∧ accepted it = false
        ∧ err = match it with
                | JNull =>
                    TypeError "Cannot read properties of null (reading 'url')"
                | _ =>
                    TypeError "Cannot convert object to primitive value"
                end
  end.
Proof. apply normalize_cases. Qed.

(** X2. A setting made of plain strings only normalizes to one entry per
    string, in the same order, each with that string as url and no label,
    whatever the strings are. *)
Theorem normalize_strings
    {num : Type} `{!JsNumber num} (urls : list string) :
  normalizeConfigEntries (Some (JStr <$> urls) : option (list (JsValue num)))
  = Normal ((λ s, {| label := JUndefined; url := JStr s |}) <$> urls).
Proof.
  simpl. induction urls as [|s urls IH]; [done|].
  rewrite !fmap_cons, array_map_cons, IH. reflexivity.
Qed.

(** X3. Normalizing a concatenation is normalizing both parts in turn: the
    first throw, if any, is the outcome, and otherwise the entries of the
    first part are followed by those of the second. *)
Theorem normalize_app
    {num : Type} `{!JsNumber num} (raw1 raw2 : list (JsValue num)) :
  normalizeConfigEntries (Some (raw1 ++ raw2))
  = (out1 ← normalizeConfigEntries (Some raw1);
     out2 ← normalizeConfigEntries (Some raw2);
     mret (out1 ++ out2)).
Proof. apply array_map_app. Qed.

(** ** String operations of the resolver *)

Lemma app_assoc_str (s t u : string) : (s +:+ t) +:+ u = s +:+ (t +:+ u).
Proof. induction s as [|c s IH]; [done|]. by rewrite !app_cons, IH. Qed.

Lemma length_app_str (a b : string) :
  String.length (a +:+ b) = (String.length a + String.length b)%nat.
Proof. induction a as [|c a IH]; [done|]. rewrite app_cons. simpl. by rewrite IH. Qed.

Lemma take_app_length (a b : string) :
  JsString.take (String.length a) (a +:+ b) = a.
Proof. induction a as [|c a IH]; [by destruct b|]. rewrite app_cons. simpl. by rewrite IH. Qed.


(** [s.slice(0, n)] is the prefix of length [n], and [s.slice(n)] what
    follows it. *)
Lemma slice_prefix (a b : string) :
  JsString.slice (a +:+ b) 0 (Some (Z.of_nat (String.length a))) = a.
Proof.
  unfold JsString.slice, JsString.clamp_index. rewrite length_app_str.
  replace (0 <? 0) with false by done.
  destruct (Z.ltb_spec (Z.of_nat (String.length a)) 0) as [?|_]; [lia|].
  rewrite Z.min_l, Z.min_l by lia.
  replace (Z.to_nat (Z.max (Z.of_nat (String.length a) - 0) 0))
    with (String.length a) by lia.
  apply take_app_length.
Qed.


(** The last occurrence of a character cuts a string in two. *)
Lemma contains_last (c : ascii) (s : string) :
  JsString.contains c s = true →
  ∃ a b, s = a +:+ String c b ∧ JsString.contains c b = false.
Proof.
  induction s as [|x s IH]; [done|]. simpl.
  destruct (JsString.contains c s) eqn:Hs.
  - intros _. destruct (IH eq_refl) as (a & b & -> & Hb).
    by exists (String x a), b.
  - rewrite orb_false_r. intros ->%Ascii.eqb_eq. by exists EmptyString, s.
Qed.


Lemma lastIndexOf_absent (c : ascii) (s : string) :
  JsString.contains c s = false → JsString.lastIndexOf c s = -1.
Proof.
  induction s as [|x s IH]; [done|]. simpl.
  intros [Hx Hs]%orb_false_elim. by rewrite IH, Hx.
Qed.

Lemma lastIndexOf_last (c : ascii) (a b : string) :
  JsString.contains c b = false →
  JsString.lastIndexOf c (a +:+ String c b) = Z.of_nat (String.length a).
Proof.
  intros Hb. induction a as [|x a IH].
  - rewrite app_empty_l. simpl.
    by rewrite lastIndexOf_absent, Ascii.eqb_refl.
  - rewrite app_cons. simpl. rewrite IH.
    destruct (Z.leb_spec 0 (Z.of_nat (String.length a))); lia.
Qed.

Lemma split_cut (sep : ascii) (a b : string) :
  JsString.contains sep a = false →
  JsString.split sep (a +:+ String sep b) = a :: JsString.split sep b.
Proof.
  intros Ha. induction a as [|x a IH].
  - rewrite app_empty_l. simpl. by rewrite Ascii.eqb_refl.
  - simpl in Ha. apply orb_false_elim in Ha as [Hx Ha].
    rewrite app_cons. simpl. by rewrite Hx, IH.
Qed.

Lemma split_snoc_sep (sep : ascii) (d seg : string) :
  JsString.contains sep seg = false →
  JsString.pop (JsString.split sep (d +:+ String sep seg)) = Some seg.
Proof.
  intros Hseg. destruct (split_snoc sep d seg Hseg) as (p & ps & ->).
  unfold JsString.pop. by rewrite app_comm_cons, last_snoc.
Qed.

(** The last segment of [s.split(sep)] is what follows the last separator,
    or [s] itself when there is none. *)
Lemma pop_split_cut (sep : ascii) (s : string) :
  ∃ dir seg,
    JsString.pop (JsString.split sep s) = Some seg
    ∧ s = dir +:+ seg
    ∧ JsString.contains sep seg = false
    ∧ (dir = EmptyString ∨ ∃ d, dir = d +:+ String sep EmptyString).
Proof.
  destruct (JsString.contains sep s) eqn:Hs.
  - destruct (contains_last sep s Hs) as (a & b & -> & Hb).
    exists (a +:+ String sep EmptyString), b.
    split; [by apply split_snoc_sep|].
    split; [by rewrite app_assoc_str|]. split; [done|]. right. by exists a.
  - exists EmptyString, s. rewrite split_no_sep by done. by repeat split; auto.
Qed.

Lemma prefix_app (p a b : string) :
  String.prefix p a = true → String.prefix p (a +:+ b) = true.
Proof.
  revert a. induction p as [|x p IH]; intros a; [by destruct a, b|].
  destruct a as [|y a]; [done|]. rewrite app_cons. simpl.
  destruct (ascii_dec x y); [apply IH|done].
Qed.

(** ** [expandVariables], beyond the claims *)


Lemma find_ext {A} (f g : A → bool) (l : list A) :
  (∀ x, f x = g x) → List.find f l = List.find g l.
Proof. intros H. induction l as [|x l IH]; simpl; [done|]. by rewrite H, IH. Qed.

(** Lines 55-58 in terms of the value of [fileBasename]. *)
Lemma resolve_fileBasenameNoExtension (ctx : EditorContext) :
  resolveVariable ctx "fileBasenameNoExtension"
  = let base := resolveVariable ctx "fileBasename" in
    let idx := JsString.lastIndexOf "." base in
    if 0 <? idx then JsString.slice base 0 (Some idx) else base.
Proof. reflexivity. Qed.



(** X5. An expression [workspaceFolder...:NAME], with or without further
    [:...] parts, stands for the path of the first workspace folder whose
    name is [NAME], the empty string when no folder has that name; what
    stands between [workspaceFolder] and the first colon, and what follows
    a second colon, is ignored. *)
Theorem workspaceFolder_named
    (ctx : EditorContext) (head name' rest : string) :
  JsString.startsWith "workspaceFolder" head = true →
  JsString.contains ":" head = false →
  JsString.contains ":" name' = false →
  rest = EmptyString ∨ (∃ r, rest = String ":" r) →
  resolveVariable ctx (head +:+ String ":" (name' +:+ rest))
  = or_empty (uri_fsPath <$>
                List.find (λ f, String.eqb (name f) name')
                  (default [] (workspaceFolders ctx))).
Proof.
  intros Hw Hhead Hname Hrest.
  assert (∃ ps, JsString.split ":" (head +:+ String ":" (name' +:+ rest))
                = head :: name' :: ps) as [ps Hsplit].
  { rewrite split_cut by done.
    destruct Hrest as [-> | [r ->]].
    - rewrite app_empty_r, split_no_sep by done. by exists [].
    - rewrite split_cut by done. eauto. }
  unfold resolveVariable.
  assert (JsString.startsWith "workspaceFolder"
            (head +:+ String ":" (name' +:+ rest)) = true) as Hw'
    by (by apply prefix_app).
  destruct (startsWith_workspaceFolder_not_env _ Hw') as [-> _].
  rewrite Hw', Hsplit. simpl.
  f_equal. f_equal. apply find_ext. intros f.
  destruct (String.eqb_spec (name f) name') as [->|Hne].
  - by apply bool_decide_eq_true.
  - apply bool_decide_eq_false. congruence.
Qed.

Lemma workspaceFolder_named_witness :
  resolveVariable Samples.ctx_report
    ("workspaceFolderX" +:+ String ":" ("backend" +:+ ":ignored"))
  = or_empty (uri_fsPath <$>
                List.find (λ f, String.eqb (name f) "backend")
                  (default [] (workspaceFolders Samples.ctx_report))).
Proof.
  apply (workspaceFolder_named Samples.ctx_report
           "workspaceFolderX" "backend" ":ignored");
    [reflexivity | reflexivity | reflexivity | right; by eexists].
Defined.

(** X6. Without active editor, each of the eight expressions that read the
    editor stands for the empty string. *)
Theorem editor_variables_empty_without_editor
    (ctx : EditorContext) (expr : string) :
  activeTextEditor ctx = None →
  expr ∈ ["file"; "filePath"; "fileBasename"; "fileBasenameNoExtension";
          "fileDirname"; "relativeFile"; "selectedText"; "lineNumber"] →
  resolveVariable ctx expr = EmptyString.
Proof.
  intros Hed Hin. rewrite !elem_of_cons, elem_of_nil in Hin.
  destruct Hin as [->|[->|[->|[->|[->|[->|[->|[->|[]]]]]]]]];
    unfold resolveVariable; rewrite Hed; reflexivity.
Qed.

Lemma editor_variables_empty_without_editor_witness :
  resolveVariable Samples.ctx_bare "fileBasenameNoExtension" = EmptyString.
Proof.
  apply (editor_variables_empty_without_editor Samples.ctx_bare
           "fileBasenameNoExtension"); [reflexivity|].
  do 3 right. left.
Defined.

(** X7. When the basename is [stem.ext], with [stem] not empty and no dot
    in [ext], [fileBasenameNoExtension] is [stem]: exactly the last
    extension goes, whatever dots [stem] has. *)
Theorem fileBasenameNoExtension_strips_extension
    (ctx : EditorContext) (stem ext : string) :
  resolveVariable ctx "fileBasename" = stem +:+ String "." ext →
  stem ≠ EmptyString →
  JsString.contains "." ext = false →
  resolveVariable ctx "fileBasenameNoExtension" = stem.
Proof.
  intros Hbase Hstem Hext.
  rewrite resolve_fileBasenameNoExtension, Hbase. cbv zeta.
  rewrite lastIndexOf_last by done.
  destruct (Z.ltb_spec 0 (Z.of_nat (String.length stem))) as [_|Hle].
  - apply slice_prefix.
  - destruct stem; [done|simpl in Hle; lia].
Qed.

Lemma fileBasenameNoExtension_strips_extension_witness :
  resolveVariable Samples.ctx_report "fileBasenameNoExtension"
  = ".report.final".
Proof.
  apply (fileBasenameNoExtension_strips_extension Samples.ctx_report
           ".report.final" "txt"); [reflexivity | discriminate | reflexivity].
Defined.

(** X8. A basename without dot, and a basename whose only dot is its first
    character, are their own [fileBasenameNoExtension]. *)
Theorem fileBasenameNoExtension_keeps_dotless
    (ctx : EditorContext) (base : string) :
  resolveVariable ctx "fileBasename" = base →
  JsString.contains "." base = false
  ∨ (∃ r, base = String "." r ∧ JsString.contains "." r = false) →
  resolveVariable ctx "fileBasenameNoExtension" = base.
Proof.
  intros Hbase Hdots.
  rewrite resolve_fileBasenameNoExtension, Hbase. cbv zeta.
  destruct Hdots as [Hno | (r & -> & Hr)].
  - by rewrite lastIndexOf_absent.
  - pose proof (lastIndexOf_last "." "" r Hr) as Hidx.
    rewrite app_empty_l in Hidx. by rewrite Hidx.
Qed.

Lemma fileBasenameNoExtension_keeps_dotless_witness :
  resolveVariable Samples.ctx_gitignore "fileBasenameNoExtension"
  = ".gitignore".
Proof.
  apply (fileBasenameNoExtension_keeps_dotless Samples.ctx_gitignore
           ".gitignore"); [reflexivity|].
  right. exists "gitignore". split; reflexivity.
Defined.

(** X9. [fileBasenameNoExtension] is always a prefix of [fileBasename]:
    what is cut off is nothing, or a dot followed by a text without dot. *)
Theorem fileBasenameNoExtension_prefix (ctx : EditorContext) :
  ∃ suffix,
    resolveVariable ctx "fileBasename"
    = resolveVariable ctx "fileBasenameNoExtension" +:+ suffix
    ∧ (suffix = EmptyString
       ∨ ∃ ext, suffix = String "." ext ∧ JsString.contains "." ext = false).
Proof.
  rewrite resolve_fileBasenameNoExtension. cbv zeta.
  destruct (JsString.contains "." (resolveVariable ctx "fileBasename")) eqn:Hd.
  - destruct (contains_last _ _ Hd) as (a & b & Hab & Hb).
    rewrite Hab, lastIndexOf_last by done.
    destruct (Z.ltb_spec 0 (Z.of_nat (String.length a))) as [_|Hle].
    + rewrite slice_prefix. exists (String "." b). eauto.
    + exists EmptyString. rewrite app_empty_r. auto.
  - rewrite lastIndexOf_absent by done. simpl.
    exists EmptyString. rewrite app_empty_r. auto.
Qed.

(** X10. [relativeFile] is a directory part, empty or ending in a slash,
    followed by [fileBasename], and [fileBasename] has no slash. *)
Theorem relativeFile_ends_with_basename (ctx : EditorContext) :
  ∃ dir,
    resolveVariable ctx "relativeFile"
    = dir +:+ resolveVariable ctx "fileBasename"
    ∧ (dir = EmptyString ∨ ∃ d, dir = d +:+ "/")
    ∧ JsString.contains "/" (resolveVariable ctx "fileBasename") = false.
Proof.
  unfold resolveVariable. simpl.
  destruct (activeTextEditor ctx) as [ed|]; [|by exists EmptyString; auto].
  destruct (pop_split_cut "/" (document_relativePath ed))
    as (dir & seg & -> & Heq & Hseg & Hdir).
  exists dir. by repeat split.
Qed.

(** X11. [fileDirname] is the path of the active document up to its last
    slash, the slash left out; it is empty for a file directly under the
    root and for a path without slash. *)
Theorem fileDirname_cuts_last_segment
    (ctx : EditorContext) (ed : TextEditor) :
  activeTextEditor ctx = Some ed →
  (∀ dir seg,
     document_fsPath ed = dir +:+ String "/" seg →
     JsString.contains "/" seg = false →
     resolveVariable ctx "fileDirname" = dir)
  ∧ (JsString.contains "/" (document_fsPath ed) = false →
     resolveVariable ctx "fileDirname" = EmptyString).
Proof.
  intros Hed. unfold resolveVariable; simpl; rewrite Hed. split.
  - intros dir seg -> Hseg. rewrite lastIndexOf_last by done.
    destruct (Z.leb_spec 0 (Z.of_nat (String.length dir))); [|lia].
    apply slice_prefix.
  - intros Hno. by rewrite lastIndexOf_absent.
Qed.

Lemma fileDirname_cuts_last_segment_witness :
  resolveVariable Samples.ctx_gitignore "fileDirname" = "/w".
Proof.
  apply (proj1 (fileDirname_cuts_last_segment Samples.ctx_gitignore
                  {| document_fsPath := "/w/.gitignore";
                     document_relativePath := ".gitignore";
                     selection_text := "node_modules";
                     selection_line := 0 |} eq_refl) "/w" ".gitignore");
    reflexivity.
Defined.

(** X12. An expression taken by a rule other than [env:] never reads the
    environment: a variable named [cwd], [file] and so on is out of reach
    of the plain placeholder and is read with [env:] only. *)
Theorem named_rule_ignores_environment
    (ctx : EditorContext) (env : gmap string string) (expr : string) :
  named_rule expr = true →
  JsString.startsWith "env:" expr = false →
  resolveVariable (set_env ctx env) expr = resolveVariable ctx expr.
Proof.
  unfold named_rule, resolveVariable. intros Hr Henv. rewrite Henv in *.
  simpl in *.
  repeat match goal with
         | |- context [if ?b then _ else _] =>
             match b with
             | context [expr] => destruct b eqn:?; [reflexivity|]
             end
         end.
  repeat match goal with E : _ || _ = false |- _ =>
           apply orb_false_elim in E as [??] end.
  repeat match goal with E : _ = false |- _ => rewrite E in Hr; clear E end.
  discriminate.
Qed.

Lemma named_rule_ignores_environment_witness :
  resolveVariable (set_env Samples.ctx_report {[ "cwd" := "/elsewhere" ]}) "cwd"
  = resolveVariable Samples.ctx_report "cwd".
Proof.
  apply (named_rule_ignores_environment Samples.ctx_report
           {[ "cwd" := "/elsewhere" ]} "cwd"); reflexivity.
Defined.

(** X21. The selected text is put in place of [${selectedText}] as it is
    and is not scanned in turn: a placeholder that the selection holds
    stays in the result. *)
Theorem selectedText_copied_verbatim
    {num : Type} `{!JsNumber num}
    (ctx : EditorContext) (ed : TextEditor) (pre post : string) :
  activeTextEditor ctx = Some ed →
  Placeholder.no_opening pre = true →
  expandVariables ctx
    (JStr (pre +:+ "${" +:+ "selectedText" +:+ "}" +:+ post) : JsValue num)
  = Normal (pre +:+ selection_text ed
              +:+ Placeholder.replace (resolveVariable ctx) post).
Proof.
  intros Hed Hp. rewrite expand_leftmost by done.
  unfold resolveVariable at 1. simpl. by rewrite Hed.
Qed.

Lemma selectedText_copied_verbatim_witness :
  expandVariables
    {| activeTextEditor := Some {| document_fsPath := "/w/a.txt";
                                   document_relativePath := "a.txt";
                                   selection_text := "${cwd}";
                                   selection_line := 3 |};
       workspaceFolders := None;
       process_env := ∅;
       process_cwd := "/w" |}
    (JStr ("q=" +:+ "${" +:+ "selectedText" +:+ "}" +:+ "") : JsValue Z)
  = Normal ("q=" +:+ "${cwd}"
              +:+ Placeholder.replace
                    (resolveVariable
                       {| activeTextEditor := Some {| document_fsPath := "/w/a.txt";
                                                      document_relativePath := "a.txt";
                                                      selection_text := "${cwd}";
                                                      selection_line := 3 |};
                          workspaceFolders := None;
                          process_env := ∅;
                          process_cwd := "/w" |}) "").
Proof.
  apply (selectedText_copied_verbatim
           {| activeTextEditor := Some {| document_fsPath := "/w/a.txt";
                                          document_relativePath := "a.txt";
                                          selection_text := "${cwd}";
                                          selection_line := 3 |};
              workspaceFolders := None;
              process_env := ∅;
              process_cwd := "/w" |}
           {| document_fsPath := "/w/a.txt";
              document_relativePath := "a.txt";
              selection_text := "${cwd}";
              selection_line := 3 |} "q=" ""); reflexivity.
Defined.

(** ** The command, beyond the claims *)

Section CommandMore.
Context {num : Type} `{!JsNumber num}.

(** The three ways [pickEntry] ends when there is more than one entry. *)
Lemma pickEntry_several (host : Host num) (entries : list (UrlEntry num))
    (log : list (HostCall num)) :
  (2 ≤ length entries)%nat →
  pickEntry host entries log
  = match quickPick_answer host (quickPickItem <$> entries) with
    | Normal quick =>
        (Normal (item_entry <$> quick),
         log ++ [ShowQuickPick (quickPickItem <$> entries) "Choose a URL to open"])
    | Throw err =>
        (Throw err,
         log ++ [ShowQuickPick (quickPickItem <$> entries) "Choose a URL to open"])
    end.
Proof.
  intros Hlen. destruct entries as [|e1 [|e2 es]]; simpl in Hlen; [lia..|].
  unfold pickEntry, act_bind, act_call, act_lift, act_ret. simpl.
  by destruct (quickPick_answer host _).
Qed.

Lemma quickPickItem_entries (entries : list (UrlEntry num)) :
  item_entry <$> (quickPickItem <$> entries) = entries.
Proof. induction entries as [|e es IH]; [done|]. by rewrite !fmap_cons, IH. Qed.

(** The calls of an invocation: at most one call to the picker, and after
    it nothing, one notice, one call to the opener, or one call to the
    opener and one error notice. *)
Lemma run_log_shape (host : Host num) :
  ∃ pre calls,
    (run host).2 = pre ++ calls
    ∧ (pre = [] ∨ ∃ items placeHolder, pre = [ShowQuickPick items placeHolder])
    ∧ (calls = []
       ∨ (∃ m, calls = [ShowInformationMessage m])
       ∨ (∃ m, calls = [ShowErrorMessage m])
       ∨ (∃ uri, calls = [OpenExternal uri])
       ∨ (∃ uri m, calls = [OpenExternal uri; ShowErrorMessage m])).
Proof.
  unfold run, openUrlAction, act_bind, act_lift.
  destruct (getConfigUrls host) as [entries|err]; [|by exists [], []; auto].
  destruct (length entries =? 0)%nat.
  { exists [], [ShowInformationMessage "No URLs configured in `openUrl.urls`."].
    split; [done|]. split; [by left|]. right; left. by eexists. }
  destruct (pickEntry host entries []) as [r log] eqn:Hp.
  apply pickEntry_log in Hp. simpl in Hp.
  destruct r as [[pick|]|err].
  - destruct (openPicked_outcome host pick log) as (calls & -> & Hcalls).
    exists log, calls. split; [done|]. split; [done|].
    destruct Hcalls as [?|[?|?]]; auto.
  - exists log, []. simpl. rewrite app_nil_r. auto.
  - exists log, []. simpl. rewrite app_nil_r. auto.
Qed.

(** When the opener is called, it is called with the parsed, encoded form
    of a url that expanded to something other than white space. *)
Lemma openPicked_opens (host : Host num) (pick : UrlEntry num)
    (log : list (HostCall num)) (uri : string) :
  OpenExternal uri ∈ (openPicked host pick log).2 →
  OpenExternal uri ∈ log
  ∨ ∃ expanded safe,
      expandVariables (context host) (url pick) = Normal expanded
      ∧ JsString.allWhiteSpace expanded = false
      ∧ encodeURI host expanded = Normal safe
      ∧ Uri_parse host safe = Normal uri.
Proof.
  unfold openPicked, try_catch, act_bind, act_lift, act_call, act_ret.
  destruct (expandVariables (context host) (url pick)) as [expanded|err] eqn:Hexp;
    simpl; [|rewrite elem_of_app, list_elem_of_singleton; intros [?|[=]]; auto].
  rewrite blank_test.
  destruct (JsString.allWhiteSpace expanded) eqn:Hblank;
    simpl; [rewrite elem_of_app, list_elem_of_singleton; intros [?|[=]]; auto|].
  destruct (encodeURI host expanded) as [safe|err] eqn:Henc;
    simpl; [|rewrite elem_of_app, list_elem_of_singleton; intros [?|[=]]; auto].
  destruct (Uri_parse host safe) as [uri'|err] eqn:Hparse;
    simpl; [|rewrite elem_of_app, list_elem_of_singleton; intros [?|[=]]; auto].
  destruct (openExternal_answer host uri') as [ok|err]; simpl;
    rewrite ?elem_of_app, ?list_elem_of_singleton.
  - intros [?|[= ->]]; [auto|]. right. by exists expanded, safe.
  - intros [[?|[= ->]]|[=]]; [auto|]. right. by exists expanded, safe.
Qed.

Lemma opens_expanded_url_aux (host : Host num) (entries : list (UrlEntry num))
    (pick : UrlEntry num) (log : list (HostCall num))
    (expanded safe uri : string) (ok : bool) :
  getConfigUrls host = Normal entries →
  entries ≠ [] →
  pickEntry host entries [] = (Normal (Some pick), log) →
  expandVariables (context host) (url pick) = Normal expanded →
  JsString.allWhiteSpace expanded = false →
  encodeURI host expanded = Normal safe →
  Uri_parse host safe = Normal uri →
  openExternal_answer host uri = Normal ok →
  run host = (Normal (), log ++ [OpenExternal uri]).
Proof.
  intros Hcfg Hne Hpick Hexp Hblank Henc Hparse Hopen.
  rewrite (run_picked host entries pick log) by done.
  unfold openPicked, try_catch, act_bind, act_lift, act_call, act_ret.
  by rewrite Hexp, blank_test, Hblank, Henc, Hparse, Hopen.
Qed.

End CommandMore.

(** X13. With no setting at all, with a falsy one, or with an empty list,
    the command shows the notice that no url is configured and makes no
    other call. *)
Theorem no_urls_shows_notice
    {num : Type} `{!JsNumber num} (host : Host num) :
  truthy (configuration host) = false ∨ configuration host = JArr [] →
  run host
  = (Normal (),
     [ShowInformationMessage "No URLs configured in `openUrl.urls`."]).
Proof.
  intros Hcfg.
  unfold run, openUrlAction, act_bind, act_lift, getConfigUrls.
  destruct Hcfg as [Hf | ->]; [|done].
  destruct (configuration host) as [| |b|n|s|items|props];
    simpl in *; try done; by rewrite Hf.
Qed.

Lemma no_urls_shows_notice_witness :
  run {| configuration := (JArr [] : JsValue Z);
         context := Samples.ctx_report;
         quickPick_answer items := Normal None;
         encodeURI s := Normal s;
         Uri_parse s := Normal s;
         openExternal_answer uri := Normal true |}
  = (Normal (),
     [ShowInformationMessage "No URLs configured in `openUrl.urls`."]).
Proof.
  apply (no_urls_shows_notice
           {| configuration := (JArr [] : JsValue Z);
              context := Samples.ctx_report;
              quickPick_answer items := Normal None;
              encodeURI s := Normal s;
              Uri_parse s := Normal s;
              openExternal_answer uri := Normal true |}).
  right. reflexivity.
Defined.

(** X14. With two entries or more, the picker is called once, before any
    other call, with one item per entry in the order of the setting; when
    it is dismissed the command ends without a word, when it is rejected
    the command throws the error, and otherwise it goes on with the entry
    of the item picked. *)
Theorem several_entries_ask_picker
    {num : Type} `{!JsNumber num}
    (host : Host num) (entries : list (UrlEntry num)) :
  getConfigUrls host = Normal entries →
  (2 ≤ length entries)%nat →
  item_entry <$> (quickPickItem <$> entries) = entries
  ∧ run host
    = match quickPick_answer host (quickPickItem <$> entries) with
      | Normal None =>
          (Normal (),
           [ShowQuickPick (quickPickItem <$> entries) "Choose a URL to open"])
      | Normal (Some item) =>
          openPicked host (item_entry item)
            [ShowQuickPick (quickPickItem <$> entries) "Choose a URL to open"]
      | Throw err =>
          (Throw err,
           [ShowQuickPick (quickPickItem <$> entries) "Choose a URL to open"])
      end.
Proof.
  intros Hcfg Hlen. split; [apply quickPickItem_entries|].
  unfold run, openUrlAction, act_bind, act_lift. rewrite Hcfg.
  replace (length entries =? 0)%nat with false
    by (symmetry; apply Nat.eqb_neq; lia).
  cbv beta iota. rewrite pickEntry_several by done. simpl.
  by destruct (quickPick_answer host _) as [[item|]|err].
Qed.

Lemma several_entries_ask_picker_witness :
  item_entry <$> (quickPickItem <$> [Samples.entry_plain; Samples.entry_mine])
  = [Samples.entry_plain; Samples.entry_mine]
  ∧ run Samples.host_rejecting
    = match quickPick_answer Samples.host_rejecting
              (quickPickItem <$> [Samples.entry_plain; Samples.entry_mine]) with
      | Normal None =>
          (Normal (),
           [ShowQuickPick (quickPickItem <$> [Samples.entry_plain; Samples.entry_mine])
              "Choose a URL to open"])
      | Normal (Some item) =>
          openPicked Samples.host_rejecting (item_entry item)
            [ShowQuickPick (quickPickItem <$> [Samples.entry_plain; Samples.entry_mine])
               "Choose a URL to open"]
      | Throw err =>
          (Throw err,
           [ShowQuickPick (quickPickItem <$> [Samples.entry_plain; Samples.entry_mine])
              "Choose a URL to open"])
      end.
Proof.
  apply (several_entries_ask_picker Samples.host_rejecting
           [Samples.entry_plain; Samples.entry_mine]);
    [vm_compute; reflexivity | simpl; lia].
Defined.

(** X15. When the url of the picked entry expands to something other than
    white space and encoding, parsing and opening all succeed, the opener
    is called once, with the parsed form of the encoded expansion, and no
    notice is shown. *)
Theorem opens_expanded_url
    {num : Type} `{!JsNumber num}
    (host : Host num) (entries : list (UrlEntry num)) (pick : UrlEntry num)
    (log : list (HostCall num)) (expanded safe uri : string) (ok : bool) :
  getConfigUrls host = Normal entries →
  entries ≠ [] →
  pickEntry host entries [] = (Normal (Some pick), log) →
  expandVariables (context host) (url pick) = Normal expanded →
  JsString.allWhiteSpace expanded = false →
  encodeURI host expanded = Normal safe →
  Uri_parse host safe = Normal uri →
  openExternal_answer host uri = Normal ok →
  run host = (Normal (), log ++ [OpenExternal uri]).
Proof.
  intros Hcfg Hne Hpick Hexp Hblank Henc Hparse Hopen.
  by apply (opens_expanded_url_aux host entries pick log expanded safe uri ok).
Qed.

Lemma opens_expanded_url_witness :
  run Samples.host_alice
  = (Normal (), [] ++ [OpenExternal "https://example.com/alice"]).
Proof.
  apply (opens_expanded_url Samples.host_alice
           [{| label := JUndefined; url := JStr "https://example.com/${env:USER}" |}]
           {| label := JUndefined; url := JStr "https://example.com/${env:USER}" |}
           [] "https://example.com/alice" "https://example.com/alice"
           "https://example.com/alice" true);
    first [discriminate | vm_compute; reflexivity].
Defined.

(** X16. The command itself throws in two cases only, both before the
    [try] of line 118: when reading the setting throws, and then no call to
    the host is made, so that no notice is shown; and when the picker, asked
    because there are two entries or more, is rejected.  In every other
    case it ends normally, whatever fails from the expansion on.  A truthy
    setting that is not an array is one on which reading throws. *)
Theorem run_throws_before_try_only
    {num : Type} `{!JsNumber num} (host : Host num) :
  match getConfigUrls host with
  | Throw err => run host = (Throw err, [])
  | Normal entries =>
      match (if (2 <=? length entries)%nat
             then quickPick_answer host (quickPickItem <$> entries)
             else Normal None) with
      | Throw err =>
          run host
          = (Throw err,
             [ShowQuickPick (quickPickItem <$> entries) "Choose a URL to open"])
      | Normal _ => (run host).1 = Normal ()
      end
  end
  ∧ (truthy (configuration host) = true →
     (∀ items, configuration host ≠ JArr items) →
     run host = (Throw (TypeError "raw.map is not a function"), [])).
Proof.
  split.
  - unfold run, openUrlAction, act_bind, act_lift.
    destruct (getConfigUrls host) as [entries|err]; [|done].
    destruct entries as [|e1 [|e2 es]].
    + done.
    + simpl. by destruct (openPicked_outcome host e1 []) as (calls & -> & _).
    + change (2 <=? length (e1 :: e2 :: es))%nat with true.
      change (length (e1 :: e2 :: es) =? 0)%nat with false. cbv beta iota.
      rewrite pickEntry_several by (simpl; lia).
      destruct (quickPick_answer host _) as [[item|]|err]; [|done..].
      change (item_entry <$> Some item) with (Some (item_entry item)).
      cbv beta iota.
      match goal with
      | |- context [openPicked host ?pick ?log] =>
          by destruct (openPicked_outcome host pick log) as (calls & -> & _)
      end.
  - unfold run, openUrlAction, act_bind, act_lift, getConfigUrls.
    destruct (configuration host) as [| |b|n|s|items|props];
      simpl; intros Ht Harr; try done; try by rewrite Ht.
    by destruct (Harr items).
Qed.

Lemma run_throws_before_try_only_witness :
  run {| configuration := (JStr "https://example.com" : JsValue Z);
         context := Samples.ctx_report;
         quickPick_answer items := Normal None;
         encodeURI s := Normal s;
         Uri_parse s := Normal s;
         openExternal_answer uri := Normal true |}
  = (Throw (TypeError "raw.map is not a function"), []).
Proof.
  apply (proj2 (run_throws_before_try_only
                  {| configuration := (JStr "https://example.com" : JsValue Z);
                     context := Samples.ctx_report;
                     quickPick_answer items := Normal None;
                     encodeURI s := Normal s;
                     Uri_parse s := Normal s;
                     openExternal_answer uri := Normal true |}));
    [reflexivity | discriminate].
Defined.

(** X17. One invocation calls the picker at most once, calls the opener at
    most once and shows at most one notice. *)
Theorem run_calls_at_most_once
    {num : Type} `{!JsNumber num} (host : Host num) :
  (length (filter is_picker_call (run host).2) ≤ 1)%nat
  ∧ (length (filter is_open_call (run host).2) ≤ 1)%nat
  ∧ (length (filter is_notice (run host).2) ≤ 1)%nat.
Proof.
  destruct (run_log_shape host) as (pre & calls & -> & Hpre & Hcalls).
  destruct Hpre as [-> | (items & ph & ->)];
    destruct Hcalls as [-> | [[m ->] | [[m ->] | [[uri ->] | (uri & m & ->)]]]];
    vm_compute; lia.
Qed.

(** X18. The opener is never called on a blank url: whenever it is called,
    an entry of the setting was picked, the url of that entry expanded to
    a string that is not made of white space only, and the argument of the
    call is the parsed form of the encoded expansion. *)
Theorem opener_called_on_expansion_only
    {num : Type} `{!JsNumber num} (host : Host num) (uri : string) :
  OpenExternal uri ∈ (run host).2 →
  ∃ entries pick log expanded safe,
    getConfigUrls host = Normal entries
    ∧ entries ≠ []
    ∧ pickEntry host entries [] = (Normal (Some pick), log)
    ∧ expandVariables (context host) (url pick) = Normal expanded
    ∧ JsString.allWhiteSpace expanded = false
    ∧ encodeURI host expanded = Normal safe
    ∧ Uri_parse host safe = Normal uri.
Proof.
  unfold run, openUrlAction, act_bind, act_lift.
  destruct (getConfigUrls host) as [entries|err]; [|by intros ?%elem_of_nil].
  destruct entries as [|e0 es] eqn:He.
  { simpl. intros [=]%list_elem_of_singleton. }
  rewrite <-He. assert (entries ≠ []) as Hne by (by rewrite He).
  replace (length entries =? 0)%nat with false by (by rewrite He).
  destruct (pickEntry host entries []) as [r log] eqn:Hp.
  pose proof (pickEntry_log _ _ _ _ _ Hp) as Hlog.
  assert (OpenExternal uri ∉ log) as Hnot.
  { destruct Hlog as [-> | (items & ph & ->)]; absent_call. }
  destruct r as [[pick|]|err']; [|done..].
  intros [?|(expanded & safe & ?)]%openPicked_opens; [done|].
  by exists entries, pick, log, expanded, safe.
Qed.

Lemma opener_called_on_expansion_only_witness :
  ∃ entries pick log expanded safe,
    getConfigUrls Samples.host_alice = Normal entries
    ∧ entries ≠ []
    ∧ pickEntry Samples.host_alice entries [] = (Normal (Some pick), log)
    ∧ expandVariables (context Samples.host_alice) (url pick) = Normal expanded
    ∧ JsString.allWhiteSpace expanded = false
    ∧ encodeURI Samples.host_alice expanded = Normal safe
    ∧ Uri_parse Samples.host_alice safe = Normal "https://example.com/alice".
Proof.
  apply (opener_called_on_expansion_only Samples.host_alice
           "https://example.com/alice").
  vm_compute. left.
Defined.

(** X19. An entry whose url is a truthy value other than a string, as an
    object of the setting with such a [url] gives, cannot be expanded: the
    command reports the [TypeError] in an error notice and does not call
    the opener. *)
Theorem non_string_url_reported
    {num : Type} `{!JsNumber num}
    (host : Host num) (entries : list (UrlEntry num)) (pick : UrlEntry num)
    (log : list (HostCall num)) :
  getConfigUrls host = Normal entries →
  entries ≠ [] →
  pickEntry host entries [] = (Normal (Some pick), log) →
  truthy (url pick) = true →
  typeof (url pick) ≠ "string" →
  run host
  = (Normal (),
     log ++ [ShowErrorMessage
               "Failed to open URL: TypeError: template.replace is not a function"]).
Proof.
  intros Hcfg Hne Hpick Ht Hty.
  rewrite (run_picked host entries pick log) by done.
  unfold openPicked, try_catch, act_bind, act_lift, act_call, act_ret.
  unfold expandVariables. rewrite Ht. simpl.
  by destruct (url pick).
Qed.

Lemma non_string_url_reported_witness :
  run {| configuration := JArr [JObj {[ "url" := JNum 5 ]}];
         context := Samples.ctx_report;
         quickPick_answer items := Normal None;
         encodeURI s := Normal s;
         Uri_parse s := Normal s;
         openExternal_answer uri := Normal true |}
  = (Normal (),
     [] ++ [ShowErrorMessage
              "Failed to open URL: TypeError: template.replace is not a function"]).
Proof.
  apply (non_string_url_reported
           {| configuration := JArr [JObj {[ "url" := JNum 5 ]}];
              context := Samples.ctx_report;
              quickPick_answer items := Normal None;
              encodeURI s := Normal s;
              Uri_parse s := Normal s;
              openExternal_answer uri := Normal true |}
           [{| label := JUndefined; url := JNum 5 |}]
           {| label := JUndefined; url := JNum 5 |} []);
    first [discriminate | vm_compute; reflexivity].
Defined.

(** X20. A setting whose only element is an object without truthy [url]
    and without [toString] property is not refused: the element becomes
    the url [[object Object]], which holds no placeholder and is not blank,
    and the command hands it to the opener. *)
Theorem object_without_url_is_opened
    {num : Type} `{!JsNumber num}
    (host : Host num) (props : gmap string (JsValue num))
    (safe uri : string) (ok : bool) :
  configuration host = JArr [JObj props] →
  truthy (default JUndefined (props !! "url")) = false →
  props !! "toString" = None →
  encodeURI host "[object Object]" = Normal safe →
  Uri_parse host safe = Normal uri →
  openExternal_answer host uri = Normal ok →
  run host = (Normal (), [OpenExternal uri]).
Proof.
  intros Hcfg Hurl Hprint Henc Hparse Hopen.
  apply (opens_expanded_url_aux host
           [{| label := JUndefined; url := JStr "[object Object]" |}]
           {| label := JUndefined; url := JStr "[object Object]" |}
           [] "[object Object]" safe uri ok); try done.
  unfold getConfigUrls. rewrite Hcfg. simpl.
  rewrite normalizeEntry_object, Hurl. simpl. by rewrite Hprint.
Qed.

Lemma object_without_url_is_opened_witness :
  run {| configuration := JArr [JObj {[ "label" := JStr "home"; "url" := JStr "" ]}];
         context := Samples.ctx_report;
         quickPick_answer items := Normal None;
         encodeURI s := Normal "%5Bobject%20Object%5D";
         Uri_parse s := Normal s;
         openExternal_answer uri := Normal false |}
  = (Normal (), [OpenExternal "%5Bobject%20Object%5D"]).
Proof.
  apply (object_without_url_is_opened
           {| configuration := JArr [JObj {[ "label" := JStr "home"; "url" := JStr "" ]}];
              context := Samples.ctx_report;
              quickPick_answer items := Normal None;
              encodeURI s := Normal "%5Bobject%20Object%5D";
              Uri_parse s := Normal s;
              openExternal_answer uri := Normal false |}
           {[ "label" := JStr "home"; "url" := JStr "" ]}
           "%5Bobject%20Object%5D" "%5Bobject%20Object%5D" false);
    first [reflexivity | vm_compute; reflexivity].
Defined.
